(** * The evaluation session of the script grader front end (src/App.tsx)

    The component [App] keeps eight pieces of React state, three event
    handlers ([handleFileChange], [handleUpload], [handleDownload]) and one
    effect that owns the [EventSource] streaming the logs of the current
    evaluation.  The development below embeds them as functions on an
    explicit state, with the browser objects the handlers touch (the
    [EventSource]s, the network, the saved file) kept in a [session]. *)

From stdpp Require Import base list strings pretty.
From Stdlib Require Import Ascii NArith Lia.

Set Warnings "-register-all".

(** ** JavaScript values *)

(** A JavaScript string is held as the bytes of its UTF-8 encoding (what a
    string literal of this file denotes), so that concatenation and the test
    for the empty string are those of the source. *)
Module Js.

(** The values a parsed JSON body and its properties range over, with
    [undefined] for a property that is absent.  A number is held as the text
    [Number::toString] gives for it. *)
Inductive value : Type :=
  | VUndefined
  | VNull
  | VBool (b : bool)
  | VNum (repr : string)
  | VStr (s : string)
  | VArr (elems : list value)
  | VObj (props : list (string * value)).

(** What a [throw] carries: an [Error] instance with its [message], or any
    other value ([err instanceof Error] is the only test the source makes). *)
Inductive exn : Type :=
  | JsError (message : string)
  | NotAnError.

Definition completion (A : Type) : Type := exn + A.

Definition ret {A} (a : A) : completion A := inr a.
Definition throw {A} (e : exn) : completion A := inl e.
Definition bind {A B} (c : completion A) (k : A -> completion B) : completion B :=
  match c with
  | inl e => inl e
  | inr a => k a
  end.

Notation "'try!' x := c 'in' k" := (bind c (fun x => k))
  (at level 10, x name, c at level 100, k at level 200).

(** [ToBoolean]. *)
Definition truthy (v : value) : bool :=
  match v with
  | VUndefined | VNull => false
  | VBool b => b
  | VNum r => negb (bool_decide (r = "0")) && negb (bool_decide (r = "NaN"))
  | VStr s => negb (bool_decide (s = ""))
  | VArr _ | VObj _ => true
  end.

(** The own property [k] of an object built by [JSON.parse]: of two members
    with one key the later one wins. *)
Fixpoint own (k : string) (props : list (string * value)) : option value :=
  match props with
  | [] => None
  | (k', v) :: rest =>
      match own k rest with
      | Some w => Some w
      | None => if bool_decide (k' = k) then Some v else None
      end
  end.

(** [v.k] for a key [k] that no built-in prototype defines (the source reads
    [message] and [evaluation_id] only): a [TypeError] on [null] and
    [undefined], [undefined] on the other primitives and on arrays. *)
Definition get (v : value) (k : string) : completion value :=
  match v with
  | VUndefined =>
      throw (JsError ("Cannot read properties of undefined (reading '" +:+ k +:+ "')"))
  | VNull =>
      throw (JsError ("Cannot read properties of null (reading '" +:+ k +:+ "')"))
  | VObj props => ret (default VUndefined (own k props))
  | _ => ret VUndefined
  end.

(** [ToString].  An array is joined with commas, [null] and [undefined]
    elements giving the empty text.  A parsed object has no callable own
    property: with an own [toString] neither it nor [valueOf] yields a
    primitive and the conversion throws, without one the inherited method
    gives the fixed tag. *)
Fixpoint ToString (v : value) : completion string :=
  match v with
  | VUndefined => ret "undefined"
  | VNull => ret "null"
  | VBool true => ret "true"
  | VBool false => ret "false"
  | VNum r => ret r
  | VStr s => ret s
  | VArr elems =>
      (fix join (l : list value) : completion string :=
         match l with
         | [] => ret ""
         | x :: rest =>
             let elt :=
               match x with
               | VUndefined | VNull => ret ""
               | _ => ToString x
               end in
             match rest with
             | [] => elt
             | _ :: _ =>
                 try! s := elt in
                 try! r := join rest in
                 ret (s +:+ "," +:+ r)
             end
         end) elems
  | VObj props =>
      match own "toString" props with
      | Some _ => throw (JsError "Cannot convert object to primitive value")
      | None => ret "[object Object]"
      end
  end.

(** [Object.is] between the value a state variable holds and a value that a
    fresh [JSON.parse] produced: primitives are compared by value, while an
    array or an object just parsed is never the reference already held. *)
Definition Object_is (held fresh : value) : bool :=
  match held, fresh with
  | VUndefined, VUndefined => true
  | VNull, VNull => true
  | VBool a, VBool b => bool_decide (a = b)
  | VNum a, VNum b => bool_decide (a = b)
  | VStr a, VStr b => bool_decide (a = b)
  | _, _ => false
  end.

(** *** [String.prototype.trim] *)

(** The white space and line terminators of ECMAScript, by their UTF-8
    bytes: TAB, LF, VT, FF, CR and SPACE in one byte; U+00A0 in two; U+1680,
    U+2000 to U+200A, U+2028, U+2029, U+202F, U+205F, U+3000 and U+FEFF in
    three. *)
Definition ws1 (c : ascii) : bool :=
  let n := N_of_ascii c in
  ((9 <=? n) && (n <=? 13) || (n =? 32))%N.

Definition ws2 (c1 c2 : ascii) : bool :=
  ((N_of_ascii c1 =? 194) && (N_of_ascii c2 =? 160))%N.

Definition ws3 (c1 c2 c3 : ascii) : bool :=
  let a := N_of_ascii c1 in
  let b := N_of_ascii c2 in
  let c := N_of_ascii c3 in
  ((a =? 225) && (b =? 154) && (c =? 128)
   || (a =? 226) && (b =? 128)
      && ((128 <=? c) && (c <=? 138) || (c =? 168) || (c =? 169) || (c =? 175))
   || (a =? 226) && (b =? 129) && (c =? 159)
   || (a =? 227) && (b =? 128) && (c =? 128)
   || (a =? 239) && (b =? 187) && (c =? 191))%N.

Fixpoint trimStart (s : string) : string :=
  match s with
  | EmptyString => s
  | String c1 r1 =>
      if ws1 c1 then trimStart r1 else
      match r1 with
      | EmptyString => s
      | String c2 r2 =>
          if ws2 c1 c2 then trimStart r2 else
          match r2 with
          | EmptyString => s
          | String c3 r3 => if ws3 c1 c2 c3 then trimStart r3 else s
          end
      end
  end.

(** The same scan on the reversed text, the bytes of a character met last
    byte first. *)
Fixpoint trimStart_rev (s : string) : string :=
  match s with
  | EmptyString => s
  | String c1 r1 =>
      if ws1 c1 then trimStart_rev r1 else
      match r1 with
      | EmptyString => s
      | String c2 r2 =>
          if ws2 c2 c1 then trimStart_rev r2 else
          match r2 with
          | EmptyString => s
          | String c3 r3 => if ws3 c3 c2 c1 then trimStart_rev r3 else s
          end
      end
  end.

Definition trimEnd (s : string) : string :=
  String.rev (trimStart_rev (String.rev s)).

Definition trim (s : string) : string := trimEnd (trimStart s).

End Js.

Import Js.

(** ** The component state *)

(** A [File] as the handlers see it: its [name] (shown next to the input) and
    its declared media [type]. *)
Record File : Type := mkFile { name : string; type : string }.

Record state : Type := mkState {
  answerScript : option File;
  questionPaper : option File;
  evaluationId : value;
  isLoading : bool;
  error : option string;
  uploadStatus : string;
  logs : list string;
  isEvaluating : bool
}.

(** The arguments of the [useState] calls.  [evaluationId] is declared
    [string | null]; at run time it holds whatever [data.evaluation_id] was. *)
Definition initial : state :=
  {| answerScript := None; questionPaper := None; evaluationId := VNull;
     isLoading := false; error := None; uploadStatus := ""; logs := [];
     isEvaluating := false |}.

(** One call of a state setter. *)
Inductive setter : Type :=
  | setAnswerScript (f : File)
  | setQuestionPaper (f : File)
  | setEvaluationId (v : value)
  | setIsLoading (b : bool)
  | setError (e : option string)
  | setUploadStatus (s : string)
  | setLogs (l : list string)
  | setLogsWith (f : list string -> list string)
  | setIsEvaluating (b : bool).

Definition set1 (s : state) (a : setter) : state :=
  match a with
  | setAnswerScript f =>
      mkState (Some f) (questionPaper s) (evaluationId s) (isLoading s)
        (error s) (uploadStatus s) (logs s) (isEvaluating s)
  | setQuestionPaper f =>
      mkState (answerScript s) (Some f) (evaluationId s) (isLoading s)
        (error s) (uploadStatus s) (logs s) (isEvaluating s)
  | setEvaluationId v =>
      mkState (answerScript s) (questionPaper s) v (isLoading s)
        (error s) (uploadStatus s) (logs s) (isEvaluating s)
  | setIsLoading b =>
      mkState (answerScript s) (questionPaper s) (evaluationId s) b
        (error s) (uploadStatus s) (logs s) (isEvaluating s)
  | setError e =>
      mkState (answerScript s) (questionPaper s) (evaluationId s) (isLoading s)
        e (uploadStatus s) (logs s) (isEvaluating s)
  | setUploadStatus u =>
      mkState (answerScript s) (questionPaper s) (evaluationId s) (isLoading s)
        (error s) u (logs s) (isEvaluating s)
  | setLogs l =>
      mkState (answerScript s) (questionPaper s) (evaluationId s) (isLoading s)
        (error s) (uploadStatus s) l (isEvaluating s)
  | setLogsWith f =>
      mkState (answerScript s) (questionPaper s) (evaluationId s) (isLoading s)
        (error s) (uploadStatus s) (f (logs s)) (isEvaluating s)
  | setIsEvaluating b =>
      mkState (answerScript s) (questionPaper s) (evaluationId s) (isLoading s)
        (error s) (uploadStatus s) (logs s) b
  end.

(** The setter calls of one handler run, applied in order. *)
Definition render (s : state) (calls : list setter) : state :=
  fold_left set1 calls s.

(** ** The network *)

Definition API_BASE_URL : string := "https://ai-script-grader-backend.onrender.com".

(** A [Response]: its [status], and what [response.json()] and
    [response.blob()] settle to (the parsed body, or the [SyntaxError] of a
    body that is not JSON; the bytes, or the error that cut them short). *)
Record Response : Type := mkResponse {
  status : N;
  json : completion value;
  blob : completion string
}.

Definition ok (r : Response) : bool := ((200 <=? status r) && (status r <=? 299))%N.

(** What [await fetch(...)] settles to. *)
Inductive settled : Type :=
  | Rejected (e : exn)
  | Resolved (r : Response).

(** What a handler does besides setting state, in order. *)
Inductive io : Type :=
  | Fetch (method url : string) (form : list (string * File))
  | NewEventSource (url : string)
  | Close (i : nat)
  | ConsoleError
  | SaveAs (download : string) (content : string).

(** The fixed texts and the template literals of the component. *)
Definition serverUnavailable : string :=
  "Server is currently unavailable. Please try again in a few moments.".

Definition connectionLost : string :=
  "Connection to server lost. Please refresh the page and try again.".

Definition uploadFailed (n : N) : string :=
  "Upload failed (Status: " +:+ pretty n +:+ ")".

Definition downloadFailed (n : N) : string :=
  "Failed to download PDF (Status: " +:+ pretty n +:+ ")".

Definition jobUrl (id : string) : string := API_BASE_URL +:+ "/evaluation-logs/" +:+ id.

Definition resultUrl (id : string) : string :=
  API_BASE_URL +:+ "/get-evaluated-pdf/" +:+ id.

Definition savedName (id : string) : string := "evaluated_script_" +:+ id +:+ ".pdf".

(** ** The handlers *)

(** [err instanceof Error ? err.message : other], the text every [catch]
    clause of the component reports. *)
Definition messageOf (err : exn) (other : string) : string :=
  match err with
  | JsError message => message
  | NotAnError => other
  end.

Inductive slot : Type := answer | question.

(** [handleFileChange]: [files] is [e.target.files], [files?.[0]] its head. *)
Definition handleFileChange (files : option (list File)) (ty : slot) : list setter :=
  match files ≫= head with
  | Some file =>
      if bool_decide (type file = "application/pdf") then
        [ match ty with
          | answer => setAnswerScript file
          | question => setQuestionPaper file
          end;
          setError None ]
      else [setError (Some "Please upload a valid PDF file")]
  | None => [setError (Some "Please upload a valid PDF file")]
  end.

(** [handleUpload] up to its [await fetch]: the guard, the five resets, the
    request. *)
Definition handleUpload_begin (s : state) : list setter * list io :=
  match answerScript s, questionPaper s with
  | Some a, Some q =>
      ([ setIsLoading true; setError None; setUploadStatus "Uploading files...";
         setLogs []; setIsEvaluating false ],
       [ Fetch "POST" (API_BASE_URL +:+ "/upload-pdfs/")
           [("answer_script", a); ("question_paper", q)] ])
  | _, _ =>
      ([setError (Some "Please upload both answer script and question paper")], [])
  end.

(** The body of the [try] from the [await] on: the job id, or what was
    thrown. *)
Definition uploadTry (r : settled) : completion value :=
  match r with
  | Rejected e => throw e
  | Resolved response =>
      if (status response =? 502)%N then throw (JsError serverUnavailable) else
      try! data := json response in
      if negb (ok response) then
        try! m := get data "message" in
        let arg :=
          if truthy m then m
          else VStr (uploadFailed (status response)) in
        try! text := ToString arg in
        throw (JsError text)
      else get data "evaluation_id"
  end.

(** [handleUpload] from the [await] on, with its [catch] and [finally]. *)
Definition handleUpload_settle (r : settled) : list setter :=
  match uploadTry r with
  | inr id =>
      [ setEvaluationId id; setUploadStatus "Evaluation in progress...";
        setIsEvaluating true ]
  | inl err =>
      [ setError (Some (messageOf err "An unknown error occurred"));
        setUploadStatus "" ]
  end ++ [setIsLoading false].

(** The body of the [try] of [handleDownload]: the request and, when all
    goes well, the save.  The request goes out as soon as its URL is built,
    whatever comes of it. *)
Definition downloadTry (id : value) (r : settled) : list io * completion unit :=
  match ToString id with
  | inl e => ([], throw e)
  | inr text =>
      let request := Fetch "GET" (resultUrl text) [] in
      match r with
      | Rejected e => ([request], throw e)
      | Resolved response =>
          if (status response =? 502)%N then
            ([request], throw (JsError serverUnavailable))
          else if negb (ok response) then
            ([request], throw (JsError (downloadFailed (status response))))
          else
            match blob response with
            | inl e => ([request], throw e)
            | inr b =>
                ([request; SaveAs (savedName text) b], ret tt)
            end
      end
  end.

(** [handleDownload], [r] being what its [fetch] settles to.  It reads
    [evaluationId] only, all through the one closure. *)
Definition handleDownload (s : state) (r : settled) : list setter * list io :=
  if negb (truthy (evaluationId s)) then ([], []) else
  match downloadTry (evaluationId s) r with
  | (out, inr _) => ([], out)
  | (out, inl err) =>
      ([setError (Some (messageOf err "Failed to download PDF"))], out)
  end.

(** ** The log stream and the effect that owns it *)

Inductive ReadyState : Type := CONNECTING | OPEN | CLOSED.

Record EventSource : Type := mkEventSource { url : string; readyState : ReadyState }.

(** The component with the browser objects around it: every [EventSource]
    constructed so far ([sources], an object being known by its index), the
    variable [eventSource] that the cleanup of the last effect run captured,
    the [trace] of what the handlers did, and whether React has torn the
    component down after an exception in the effect. *)
Record session : Type := mkSession {
  ui : state;
  sources : list EventSource;
  eventSource : option nat;
  trace : list io;
  unmounted : bool
}.

Definition mount : session :=
  {| ui := initial; sources := []; eventSource := None; trace := [];
     unmounted := false |}.

Definition emit (out : list io) (σ : session) : session :=
  mkSession (ui σ) (sources σ) (eventSource σ) (trace σ ++ out) (unmounted σ).

(** [close()] on the source [i]. *)
Definition close (i : nat) (σ : session) : session :=
  mkSession (ui σ)
    (alter (fun es => mkEventSource (url es) CLOSED) i (sources σ))
    (eventSource σ) (trace σ ++ [Close i]) (unmounted σ).

(** The function the effect returns: [eventSource?.close()]. *)
Definition cleanup (σ : session) : session :=
  match eventSource σ with
  | Some i => close i σ
  | None => σ
  end.

(** The effect body.  Building the URL converts [evaluationId] to a string;
    an exception there escapes the effect and React unmounts the tree. *)
Definition sseEffect (σ : session) : session :=
  if truthy (evaluationId (ui σ)) && isEvaluating (ui σ) then
    match ToString (evaluationId (ui σ)) with
    | inr id =>
        let u := jobUrl id in
        mkSession (ui σ) (sources σ ++ [mkEventSource u CONNECTING])
          (Some (length (sources σ))) (trace σ ++ [NewEventSource u]) (unmounted σ)
    | inl _ => mkSession (ui σ) (sources σ) None (trace σ) true
    end
  else mkSession (ui σ) (sources σ) None (trace σ) (unmounted σ).

(** Whether a setter call changes one of the dependencies
    [[evaluationId, isEvaluating]] held by the last render. *)
Definition invalidates (s : state) (a : setter) : bool :=
  match a with
  | setEvaluationId v => negb (Object_is (evaluationId s) v)
  | setIsEvaluating b => negb (bool_decide (isEvaluating s = b))
  | _ => false
  end.

(** The setter calls of one handler run are rendered together; when a
    dependency changed, the cleanup of the previous effect run and then the
    effect body run.  (A React that renders after each call made past an
    [await] runs cleanup and body more than once, to the same sources and
    the same trace: a source is opened only by the call that makes both
    dependencies hold.) *)
Definition dispatch (calls : list setter) (σ : session) : session :=
  let σ' := mkSession (render (ui σ) calls) (sources σ) (eventSource σ)
              (trace σ) (unmounted σ) in
  if existsb (invalidates (ui σ)) calls then sseEffect (cleanup σ') else σ'.

(** [eventSource.onmessage]. *)
Definition onmessage (data : string) : list setter :=
  if truthy (VStr (trim data)) then [setLogsWith (fun prevLogs => prevLogs ++ [data])]
  else [].

(** [eventSource.onerror] of the source [i], whose event has that source as
    its target. *)
Definition onerror (i : nat) (σ : session) : session :=
  let σ := emit [ConsoleError] σ in
  let σ := close i σ in
  dispatch
    ([setIsEvaluating false; setUploadStatus "Evaluation completed"] ++
     match readyState <$> sources σ !! i with
     | Some CLOSED =>
         [setError (Some connectionLost)]
     | _ => []
     end) σ.

(** ** Events *)

(** What can happen to a mounted component: the three handlers are called,
    a [fetch] of [handleUpload] settles, and the browser announces a
    connection, delivers a message or signals an error on a source.  On an
    error the browser has either failed the connection ([fatal], the source
    is [CLOSED]) or is re-establishing it (the source is [CONNECTING]).

    [Upload] is [handleUpload] up to its [await] and [UploadSettled] the rest
    of it, so that other events can fall in between; [handleDownload] sets no
    state before its [await] and is one event, [r] being what its request
    settles to.  The handlers are callable in every state: the [disabled]
    attributes of the buttons are not part of the model, which so admits more
    runs than the page does. *)
Inductive event : Type :=
  | FileChange (files : option (list File)) (ty : slot)
  | Upload
  | UploadSettled (r : settled)
  | Download (r : settled)
  | Connected (i : nat)
  | Message (i : nat) (data : string)
  | Error (i : nat) (fatal : bool).

Definition setReadyState (i : nat) (rs : ReadyState) (σ : session) : session :=
  mkSession (ui σ)
    (alter (fun es => mkEventSource (url es) rs) i (sources σ))
    (eventSource σ) (trace σ) (unmounted σ).

(** A source that is not [CLOSED]: the only kind the browser fires events
    at. *)
Definition isOpen (es : EventSource) : bool :=
  match readyState es with
  | CLOSED => false
  | _ => true
  end.

Definition live (i : nat) (σ : session) : bool :=
  from_option isOpen false (sources σ !! i).

Definition step (σ : session) (e : event) : session :=
  if unmounted σ then σ else
  match e with
  | FileChange files ty => dispatch (handleFileChange files ty) σ
  | Upload =>
      let '(calls, out) := handleUpload_begin (ui σ) in
      dispatch calls (emit out σ)
  | UploadSettled r => dispatch (handleUpload_settle r) σ
  | Download r =>
      let '(calls, out) := handleDownload (ui σ) r in
      dispatch calls (emit out σ)
  | Connected i => if live i σ then setReadyState i OPEN σ else σ
  | Message i data => if live i σ then dispatch (onmessage data) σ else σ
  | Error i fatal =>
      if live i σ then
        onerror i (setReadyState i (if fatal then CLOSED else CONNECTING) σ)
      else σ
  end.

Definition run (σ : session) (evs : list event) : session := fold_left step evs σ.

(** The sessions some sequence of events leads to. *)
Definition reachable (σ : session) : Prop := ∃ evs, σ = run mount evs.

(** The slot a file input feeds. *)
Definition slotOf (ty : slot) (s : state) : option File :=
  match ty with
  | answer => answerScript s
  | question => questionPaper s
  end.

Definition pdf (n : string) : File := mkFile n "application/pdf".


(** Sample traffic: both files chosen, and an upload the service accepts
    with the job id [id]. *)
Definition chosen : list event :=
  [ FileChange (Some [pdf "answers.pdf"]) answer;
    FileChange (Some [pdf "paper.pdf"]) question ].

Definition acceptedResponse (id : string) : Response :=
  mkResponse 200
    (inr (VObj [ ("status", VStr "success"); ("message", VStr "Files uploaded");
                 ("evaluation_id", VStr id) ]))
    (inr "").

Definition accepted (id : string) : settled := Resolved (acceptedResponse id).

Definition evaluating (id : string) : session :=
  run mount (chosen ++ [Upload; UploadSettled (accepted id); Connected 0]).

(** The job [id] after one log line and the end of its stream. *)
Definition finished (id : string) : session :=
  run (evaluating id) [Message 0 "line1"; Error 0 true].

(** A gateway's 502 page, a refusal that carries a [message], and a graded
    document. *)
Definition badGateway : Response :=
  mkResponse 502 (inl (JsError "Unexpected token < in JSON at position 0"))
    (inr "<html>502 Bad Gateway</html>").

Definition unprocessable : Response :=
  mkResponse 422 (inr (VObj [("message", VStr "Both files must be PDFs")])) (inr "").

Definition graded : Response :=
  mkResponse 200 (inl (JsError "Unexpected token % in JSON at position 0"))
    (inr "%PDF-1.7").

(** The setter calls of an upload that passed its guard. *)
Definition uploadResets : list setter :=
  [ setIsLoading true; setError None; setUploadStatus "Uploading files...";
    setLogs []; setIsEvaluating false ].

(** The ways an upload fails: no response, status 502, another status
    outside 200 to 299, or a body that does not parse. *)
Inductive failed : settled → Prop :=
  | failed_network e : failed (Rejected e)
  | failed_unavailable resp : status resp = 502%N → failed (Resolved resp)
  | failed_status resp : ok resp = false → failed (Resolved resp)
  | failed_parse resp e : json resp = inl e → failed (Resolved resp).

(** ** The invariant of the effect *)

(** A source that is open is the one the last effect run created, and the
    component is then mounted and evaluating. *)
Definition inv (σ : session) : Prop :=
  ∀ i, live i σ = true →
    eventSource σ = Some i ∧ isEvaluating (ui σ) = true ∧ unmounted σ = false.

(** From [σ] to [σ'] no source is lost and none that was closed reopens. *)
Definition extends (σ σ' : session) : Prop :=
  length (sources σ) ≤ length (sources σ') ∧
  ∀ i, i < length (sources σ) → live i σ = false → live i σ' = false.

(** ** White space, as the specification words it *)


(** A text is blank when it is empty or made of white-space characters
    only. *)
Inductive blank : string → Prop :=
  | blank_empty : blank ""
  | blank_1 c s : ws1 c = true → blank s → blank (String c s)
  | blank_2 c1 c2 s :
      ws2 c1 c2 = true → blank s → blank (String c1 (String c2 s))
  | blank_3 c1 c2 c3 s :
      ws3 c1 c2 c3 = true → blank s → blank (String c1 (String c2 (String c3 s))).

(** The same as a test: the text is read off one white-space character at a
    time until it ends or another character shows. *)
Fixpoint whitespace_only (s : string) : bool :=
  match s with
  | EmptyString => true
  | String c1 r1 =>
      if ws1 c1 then whitespace_only r1 else
      match r1 with
      | EmptyString => false
      | String c2 r2 =>
          if ws2 c1 c2 then whitespace_only r2 else
          match r2 with
          | EmptyString => false
          | String c3 r3 => ws3 c1 c2 c3 && whitespace_only r3
          end
      end
  end.

Definition nonblank (d : string) : bool := negb (whitespace_only d).

(** ** The page *)

(** What the JSX makes of the state: which controls take input, and which
    parts are rendered at all. *)
Definition missing (slot : option File) : bool :=
  match slot with
  | Some _ => false
  | None => true
  end.

(** [disabled] of the two file inputs. *)
Definition inputDisabled (s : state) : bool := isLoading s || isEvaluating s.

(** [disabled] of the upload button. *)
Definition uploadDisabled (s : state) : bool :=
  isLoading s || isEvaluating s || missing (answerScript s) || missing (questionPaper s).

(** [evaluationId && !isEvaluating && (<button ...>)]. *)
Definition showsDownload (s : state) : bool :=
  truthy (evaluationId s) && negb (isEvaluating s).

(** [disabled] of the download button. *)
Definition downloadDisabled (s : state) : bool := isLoading s.

(** The component with the number of [handleUpload] calls that wait for
    their [fetch]. *)
Record page : Type := mkPage { current : session; inflight : nat }.

Definition opened : page := mkPage mount 0.

(** Whether an event can reach the component: a handler through a control
    that is rendered and not disabled, the rest of [handleUpload] when a
    call waits for it.  What the browser does to a source is left to
    [step], which looks at the source. *)
Definition enabled (p : page) (e : event) : bool :=
  let σ := current p in
  match e with
  | FileChange _ _ => negb (unmounted σ) && negb (inputDisabled (ui σ))
  | Upload => negb (unmounted σ) && negb (uploadDisabled (ui σ))
  | Download _ =>
      negb (unmounted σ) && showsDownload (ui σ) && negb (downloadDisabled (ui σ))
  | UploadSettled _ => bool_decide (0 < inflight p)
  | Connected _ | Message _ _ | Error _ _ => true
  end.

Definition act (p : page) (e : event) : page :=
  if enabled p e then
    mkPage (step (current p) e)
      match e with
      | Upload => S (inflight p)
      | UploadSettled _ => pred (inflight p)
      | _ => inflight p
      end
  else p.

Definition browse (p : page) (evs : list event) : page := fold_left act evs p.

(** The pages a user and the service can bring about. *)
Definition browsed (p : page) : Prop := ∃ evs, p = browse opened evs.

(** An open source streams the job whose id the state holds. *)
Definition streams (σ : session) : Prop :=
  ∀ k es, sources σ !! k = Some es → isOpen es = true →
    truthy (evaluationId (ui σ)) = true ∧
    ∃ text, ToString (evaluationId (ui σ)) = inr text ∧ url es = jobUrl text.

(** A mounted component that is evaluating a job it can name has its
    stream. *)
Definition served (σ : session) : Prop :=
  unmounted σ = false → isEvaluating (ui σ) = true →
  truthy (evaluationId (ui σ)) = true → ∃ k, live k σ = true.

(** What the controls keep true of a page. *)
Definition orderly (p : page) : Prop :=
  let s := ui (current p) in
  inflight p = (if isLoading s then 1 else 0) ∧
  (unmounted (current p) = true → isLoading s = false) ∧
  (isLoading s = true → isEvaluating s = false ∧ logs s = []) ∧
  (isLoading s = true ∨ isEvaluating s = true →
     missing (answerScript s) = false ∧ missing (questionPaper s) = false) ∧
  (logs s ≠ [] → truthy (evaluationId s) = true).


(** A page that streams the job [id]. *)
Definition streaming (id : string) : page :=
  browse opened (chosen ++ [Upload; UploadSettled (accepted id); Connected 0;
                            Message 0 "line1"]).

(** A refusal in the shape of the earlier service: the reason is in
    [detail]. *)
Definition refusedWithDetail : Response :=
  mkResponse 400 (inr (VObj [("detail", VStr "Only PDF files are allowed")])) (inr "").

(** ** The earlier component *)

(** The component before the log stream (the second source file): six
    pieces of state, no effect, the service on the local host.  Its handlers
    are given state to state. *)
Module Legacy.

Record state : Type := mkState {
  answerScript : option File;
  questionPaper : option File;
  evaluationId : value;
  isLoading : bool;
  error : value;
  uploadStatus : string
}.

Definition initial : state :=
  {| answerScript := None; questionPaper := None; evaluationId := VNull;
     isLoading := false; error := VNull; uploadStatus := "" |}.

(** [err.message]: the message of an [Error]; a thrown value of another
    kind is taken to have no such property. *)
Definition message (err : exn) : value :=
  match err with
  | JsError m => VStr m
  | NotAnError => VUndefined
  end.

(** [handleUpload] up to its [await fetch]. *)
Definition handleUpload_begin (s : state) : state * list io :=
  match answerScript s, questionPaper s with
  | Some a, Some q =>
      (mkState (answerScript s) (questionPaper s) (evaluationId s) true VNull
         "Uploading files...",
       [ Fetch "POST" "http://localhost:8000/upload-pdfs/"
           [("answer_script", a); ("question_paper", q)] ])
  | _, _ =>
      (mkState (answerScript s) (questionPaper s) (evaluationId s) (isLoading s)
         (VStr "Please upload both answer script and question paper")
         (uploadStatus s),
       [])
  end.

(** The body of its [try]: no test of the status before the body is
    parsed, and the reason of a refusal read from [detail]. *)
Definition uploadTry (r : settled) : completion value :=
  match r with
  | Rejected e => throw e
  | Resolved response =>
      try! data := json response in
      if negb (ok response) then
        try! d := get data "detail" in
        let arg := if truthy d then d else VStr "Upload failed" in
        try! text := ToString arg in
        throw (JsError text)
      else get data "evaluation_id"
  end.

(** [handleUpload] from the [await] on. *)
Definition handleUpload_settle (r : settled) (s : state) : state :=
  match uploadTry r with
  | inr id =>
      mkState (answerScript s) (questionPaper s) id false (error s)
        "Evaluation completed successfully!"
  | inl err =>
      mkState (answerScript s) (questionPaper s) (evaluationId s) false
        (message err) ""
  end.

Definition downloadTry (id : value) (r : settled) : list io * completion unit :=
  match ToString id with
  | inl e => ([], throw e)
  | inr text =>
      let request :=
        Fetch "GET" ("http://localhost:8000/get-evaluated-pdf/" +:+ text) [] in
      match r with
      | Rejected e => ([request], throw e)
      | Resolved response =>
          if negb (ok response) then
            ([request], throw (JsError "Failed to download PDF"))
          else
            match blob response with
            | inl e => ([request], throw e)
            | inr b => ([request; SaveAs (savedName text) b], ret tt)
            end
      end
  end.

(** ["Failed to download PDF: " + err.message]. *)
Definition downloadError (err : exn) : string :=
  "Failed to download PDF: " +:+
  match message err with
  | VStr m => m
  | _ => "undefined"
  end.

Definition handleDownload (s : state) (r : settled) : state * list io :=
  if negb (truthy (evaluationId s)) then (s, []) else
  match downloadTry (evaluationId s) r with
  | (out, inr _) => (s, out)
  | (out, inl err) =>
      (mkState (answerScript s) (questionPaper s) (evaluationId s) (isLoading s)
         (VStr (downloadError err)) (uploadStatus s),
       out)
  end.

End Legacy.

(** The files saved in a run of a handler, by name and content. *)
Fixpoint saves (out : list io) : list (string * string) :=
  match out with
  | [] => []
  | SaveAs f c :: rest => (f, c) :: saves rest
  | _ :: rest => saves rest
  end.

(** A file declared as PDF, a slot that holds nothing else, an output that
    sends nothing else, and a setter call that stores nothing else. *)
Definition isPdf (f : File) : bool := bool_decide (type f = "application/pdf").

Definition pdfSlot (slot : option File) : bool :=
  match slot with
  | Some f => isPdf f
  | None => true
  end.

Definition pdfOnly (o : io) : bool :=
  match o with
  | Fetch _ _ form => forallb (λ part, isPdf part.2) form
  | _ => true
  end.

Definition storesPdf (a : setter) : bool :=
  match a with
  | setAnswerScript f | setQuestionPaper f => isPdf f
  | _ => true
  end.

(** * Properties *)

Section Trim.

Ltac bytes :=
  unfold ws1, ws2, ws3 in *;
  repeat match goal with
    | H : _ = true |- _ =>
        first [ apply andb_true_iff in H; destruct H
              | apply orb_true_iff in H; destruct H
              | apply N.eqb_eq in H
              | apply N.leb_le in H ]
    end.

Lemma ws2_not_ws1 c1 c2 : ws2 c1 c2 = true → ws1 c1 = false.
Proof.
  intros H. apply not_true_iff_false. intros H1. bytes; lia.
Qed.

Lemma ws3_not_ws1 c1 c2 c3 : ws3 c1 c2 c3 = true → ws1 c1 = false.
Proof.
  intros H. apply not_true_iff_false. intros H1. bytes; lia.
Qed.

Lemma ws3_not_ws2 c1 c2 c3 : ws3 c1 c2 c3 = true → ws2 c1 c2 = false.
Proof.
  intros H. apply not_true_iff_false. intros H1. bytes; lia.
Qed.

Lemma blank_trimStart s : blank s → trimStart s = "".
Proof.
  induction 1 as [|c s Hc _ IH|c1 c2 s Hc _ IH|c1 c2 c3 s Hc _ IH]; simpl.
  - reflexivity.
  - by rewrite Hc.
  - by rewrite (ws2_not_ws1 _ _ Hc), Hc.
  - by rewrite (ws3_not_ws1 _ _ _ Hc), (ws3_not_ws2 _ _ _ Hc), Hc.
Qed.

Lemma string_length_ind (P : string → Prop) :
  (∀ s, (∀ t, String.length t < String.length s → P t) → P s) → ∀ s, P s.
Proof.
  intros step s. remember (String.length s) as n eqn:Hn.
  revert s Hn. induction n as [n IH] using lt_wf_ind.
  intros s ->. apply step. intros t Ht. by apply (IH (String.length t)).
Qed.

(** The case analysis of the three scans: one byte, two bytes, three. *)
Ltac chunks s IH :=
  induction s as [s IH] using string_length_ind;
  destruct s as [|c1 r1]; simpl; [|
    destruct (ws1 c1) eqn:?; [|
      destruct r1 as [|c2 r2]; simpl; [|
        destruct (ws2 _ _) eqn:?; [|
          destruct r2 as [|c3 r3]; simpl; [|
            destruct (ws3 _ _ _) eqn:? ]]]]].

Ltac by_blank IH :=
  first [ apply blank_empty
        | apply blank_1; [done | apply IH; [simpl; lia | done]]
        | apply blank_2; [done | apply IH; [simpl; lia | done]]
        | apply blank_3; [done | apply IH; [simpl; lia | done]] ].

Lemma whitespace_only_blank s : whitespace_only s = true ↔ blank s.
Proof.
  split.
  - chunks s IH; intros H; try discriminate; by_blank IH.
  - induction 1 as [|c s Hc _ IH|c1 c2 s Hc _ IH|c1 c2 c3 s Hc _ IH]; simpl.
    + reflexivity.
    + by rewrite Hc.
    + by rewrite (ws2_not_ws1 _ _ Hc), Hc.
    + by rewrite (ws3_not_ws1 _ _ _ Hc), (ws3_not_ws2 _ _ _ Hc), Hc.
Qed.

Lemma trimStart_blank s : trimStart s = "" → blank s.
Proof.
  chunks s IH; intros H; try discriminate; by_blank IH.
Qed.

Lemma trimStart_idem s : trimStart (trimStart s) = trimStart s.
Proof.
  chunks s IH; try (apply IH; simpl; lia); try reflexivity;
    simpl; repeat match goal with H : _ = false |- _ => rewrite H; clear H end;
    reflexivity.
Qed.

Lemma blank_app s t : blank s → blank t → blank (s +:+ t).
Proof.
  induction 1; intros Ht; simpl; [done | | | ].
  - apply blank_1; auto.
  - apply blank_2; auto.
  - apply blank_3; auto.
Qed.

Lemma append_assoc s t u : (s +:+ t) +:+ u = s +:+ (t +:+ u).
Proof.
  induction s as [|c s IH]; [done|].
  change (String c ((s +:+ t) +:+ u) = String c (s +:+ (t +:+ u))).
  by rewrite IH.
Qed.

Lemma append_empty_r s : s +:+ "" = s.
Proof.
  induction s as [|c s IH]; [done|].
  change (String c (s +:+ "") = String c s). by rewrite IH.
Qed.

Lemma rev_app_append s1 s2 : String.rev_app s1 s2 = String.rev s1 +:+ s2.
Proof.
  unfold String.rev. revert s2.
  induction s1 as [|c s1 IH]; intros s2; simpl; [done|].
  rewrite (IH (String c "")), IH.
  by rewrite append_assoc.
Qed.

Lemma rev_cons c s : String.rev (String c s) = String.rev s +:+ String c "".
Proof. unfold String.rev at 1. simpl. apply rev_app_append. Qed.

Lemma rev_append s t : String.rev (s +:+ t) = String.rev t +:+ String.rev s.
Proof.
  induction s as [|c s IH].
  - change (String.rev "") with "". by rewrite append_empty_r.
  - change (String c s +:+ t) with (String c (s +:+ t)).
    by rewrite !rev_cons, IH, append_assoc.
Qed.

Lemma rev_involutive s : String.rev (String.rev s) = s.
Proof.
  induction s as [|c s IH]; [done|].
  by rewrite rev_cons, rev_append, IH.
Qed.

Lemma rev_empty s : String.rev s = "" → s = "".
Proof. intros H. by rewrite <- (rev_involutive s), H. Qed.

Lemma trimStart_rev_blank s : trimStart_rev s = "" → blank (String.rev s).
Proof.
  chunks s IH; intros H; try discriminate.
  - constructor.
  - rewrite rev_cons. apply blank_app; [apply IH; [simpl; lia | done]|].
    by apply blank_1; [|constructor].
  - rewrite !rev_cons, !append_assoc.
    apply blank_app; [apply IH; [simpl; lia | done]|].
    by apply blank_2; [|constructor].
  - rewrite !rev_cons, !append_assoc.
    apply blank_app; [apply IH; [simpl; lia | done]|].
    by apply blank_3; [|constructor].
Qed.

(** [trim] leaves nothing exactly of the blank texts. *)
Lemma trim_empty_iff s : trim s = "" ↔ blank s.
Proof.
  unfold trim, trimEnd. split.
  - intros H%rev_empty%trimStart_rev_blank.
    rewrite rev_involutive in H.
    apply blank_trimStart in H. rewrite trimStart_idem in H.
    by apply trimStart_blank.
  - intros H%blank_trimStart. by rewrite H.
Qed.

Lemma onmessage_keeps data :
  truthy (VStr (trim data)) = negb (whitespace_only data).
Proof.
  simpl. f_equal. destruct (whitespace_only data) eqn:Hw.
  - apply bool_decide_eq_true, trim_empty_iff, whitespace_only_blank, Hw.
  - apply bool_decide_eq_false. intros H%trim_empty_iff%whitespace_only_blank.
    congruence.
Qed.

End Trim.

(** ** File selection *)

Section Handlers.

Variable s : state.

(** C7. A selected file whose declared type is not exactly
    [application/pdf] leaves the slot as it was and sets the validation
    error; one whose type is [application/pdf] is stored in the slot of its
    input and clears the error. *)
Theorem handleFileChange_validates (file : File) (rest : list File) (ty : slot) :
  let s' := render s (handleFileChange (Some (file :: rest)) ty) in
  (type file ≠ "application/pdf" →
     slotOf ty s' = slotOf ty s ∧
     error s' = Some "Please upload a valid PDF file") ∧
  (type file = "application/pdf" →
     slotOf ty s' = Some file ∧ error s' = None).
Proof.
  unfold handleFileChange. simpl. split; intros H.
  - rewrite bool_decide_eq_false_2 by done. by destruct ty.
  - rewrite bool_decide_eq_true_2 by done. by destruct ty.
Qed.

(** The other slot is never touched, and a change event without a file
    sets the error as well. *)
Lemma handleFileChange_other (files : option (list File)) :
  answerScript (render s (handleFileChange files question)) = answerScript s ∧
  questionPaper (render s (handleFileChange files answer)) = questionPaper s.
Proof.
  unfold handleFileChange.
  destruct (files ≫= head) as [file|]; [|done].
  by destruct (bool_decide _).
Qed.

Lemma handleFileChange_no_file (ty : slot) :
  render s (handleFileChange (Some []) ty)
  = set1 s (setError (Some "Please upload a valid PDF file")).
Proof. reflexivity. Qed.

(** ** Guards *)

(** Without a job id [handleDownload] calls no setter and sends nothing;
    with a slot empty [handleUpload] sets the error and sends nothing. *)
Lemma handleDownload_no_job (r : settled) :
  truthy (evaluationId s) = false → handleDownload s r = ([], []).
Proof. intros H. unfold handleDownload. by rewrite H. Qed.

Lemma handleUpload_begin_guard :
  answerScript s = None ∨ questionPaper s = None →
  handleUpload_begin s
  = ([setError (Some "Please upload both answer script and question paper")], []).
Proof.
  unfold handleUpload_begin. intros [-> | ->]; [done|].
  by destruct (answerScript s).
Qed.

(** ** The saved file *)

Lemma downloadTry_saves (v : value) (text : string) (r : settled) (f c : string) :
  ToString v = inr text →
  SaveAs f c ∈ (downloadTry v r).1 → f = "evaluated_script_" +:+ text +:+ ".pdf".
Proof.
  intros Hv. unfold downloadTry, savedName. rewrite Hv.
  destruct r as [e|resp]; simpl.
  - intros [H|H]%elem_of_cons; [done | by apply elem_of_nil in H].
  - destruct (status resp =? 502)%N; simpl;
      [intros [H|H]%elem_of_cons; [done | by apply elem_of_nil in H]|].
    destruct (negb (ok resp)); simpl;
      [intros [H|H]%elem_of_cons; [done | by apply elem_of_nil in H]|].
    destruct (blob resp) as [e|b]; simpl;
      [intros [H|H]%elem_of_cons; [done | by apply elem_of_nil in H]|].
    intros [H|[H|H]%elem_of_cons]%elem_of_cons; [done | congruence |].
    by apply elem_of_nil in H.
Qed.

(** C9. With the job id [j], every file [handleDownload] saves is named
    [evaluated_script_j.pdf], and a response that is [ok] with a readable
    body is saved under that name after the one request for [j]. *)
Theorem download_filename (j : string) :
  evaluationId s = VStr j →
  (∀ r f c, SaveAs f c ∈ (handleDownload s r).2 →
            f = "evaluated_script_" +:+ j +:+ ".pdf") ∧
  (∀ resp b, j ≠ "" → ok resp = true → blob resp = inr b →
     handleDownload s (Resolved resp)
     = ([], [ Fetch "GET" (resultUrl j) [];
              SaveAs ("evaluated_script_" +:+ j +:+ ".pdf") b ])).
Proof.
  intros Hj. split.
  - intros r f c. unfold handleDownload. rewrite Hj.
    destruct (negb (truthy (VStr j))); simpl; [by intros H%elem_of_nil|].
    pose proof (downloadTry_saves (VStr j) j r f c eq_refl) as Hs.
    by destruct (downloadTry (VStr j) r) as [out [e|[]]].
  - intros resp b Hne Hok Hb. unfold handleDownload, downloadTry. rewrite Hj. simpl.
    rewrite bool_decide_eq_false_2 by done. simpl.
    assert ((status resp =? 502)%N = false) as ->.
    { unfold ok in Hok. apply andb_true_iff in Hok as [_ H%N.leb_le].
      apply N.eqb_neq. lia. }
    by rewrite Hok, Hb.
Qed.

(** ** Error messages *)

(** C4. A response with status 502 gives the one "server unavailable" text,
    for the upload and for the download alike, whatever its body. *)
Theorem status_502_message (resp : Response) :
  status resp = 502%N →
  error (render s (handleUpload_settle (Resolved resp))) = Some serverUnavailable ∧
  (∀ text, truthy (evaluationId s) = true → ToString (evaluationId s) = inr text →
     (handleDownload s (Resolved resp)).1 = [setError (Some serverUnavailable)] ∧
     error (render s (handleDownload s (Resolved resp)).1) = Some serverUnavailable).
Proof.
  intros H. split.
  - unfold handleUpload_settle, uploadTry. by rewrite H.
  - intros text Ht Hs. unfold handleDownload, downloadTry. by rewrite Ht, Hs, H.
Qed.

(** C5, as the code has it. For a response that is neither [ok] nor 502 and
    whose body parses as JSON, the error is the [message] of the body when
    that is a text other than the empty one, and the templated message with
    the status when the body has no [message] or an empty one; when the body
    does not parse, it is the message of the parse error. *)
Theorem upload_failure_message (resp : Response) :
  ok resp = false → status resp ≠ 502%N →
  let s' := render s (handleUpload_settle (Resolved resp)) in
  (∀ data m, json resp = inr data → get data "message" = inr (VStr m) → m ≠ "" →
     error s' = Some m) ∧
  (∀ data, json resp = inr data →
     get data "message" = inr VUndefined ∨ get data "message" = inr (VStr "") →
     error s' = Some (uploadFailed (status resp))) ∧
  (∀ e, json resp = inl e →
     error s' = Some (messageOf e "An unknown error occurred")).
Proof.
  intros Hok H502%N.eqb_neq. unfold handleUpload_settle, uploadTry.
  rewrite H502, Hok. simpl. split_and!.
  - intros data m Hj Hg Hm. rewrite Hj. simpl. rewrite Hg. simpl.
    by rewrite bool_decide_eq_false_2.
  - intros data Hj Hg. rewrite Hj. simpl. by destruct Hg as [-> | ->].
  - by intros e ->.
Qed.

End Handlers.

Lemma handleFileChange_validates_witness :
  let s' := render initial (handleFileChange (Some [pdf "answers.pdf"]) answer) in
  slotOf answer s' = Some (pdf "answers.pdf") ∧ error s' = None.
Proof.
  exact (proj2 (handleFileChange_validates initial (pdf "answers.pdf") [] answer)
           eq_refl).
Defined.

Lemma download_filename_witness :
  handleDownload (ui (finished "xyz")) (Resolved graded)
  = ([], [ Fetch "GET" (resultUrl "xyz") [];
           SaveAs "evaluated_script_xyz.pdf" "%PDF-1.7" ]).
Proof.
  refine (proj2 (download_filename (ui (finished "xyz")) "xyz" eq_refl)
            graded "%PDF-1.7" _ eq_refl eq_refl).
  discriminate.
Defined.

Lemma status_502_message_witness :
  let s := ui (finished "abc123") in
  error (render s (handleUpload_settle (Resolved badGateway)))
  = Some serverUnavailable ∧
  error (render s (handleDownload s (Resolved badGateway)).1)
  = Some serverUnavailable.
Proof.
  destruct (status_502_message (ui (finished "abc123")) badGateway eq_refl)
    as [Hup Hdown].
  split; [exact Hup | exact (proj2 (Hdown "abc123" eq_refl eq_refl))].
Defined.

Lemma upload_failure_message_witness :
  error (render initial (handleUpload_settle (Resolved unprocessable)))
  = Some "Both files must be PDFs".
Proof.
  refine (proj1 (upload_failure_message initial unprocessable eq_refl _)
            _ "Both files must be PDFs" eq_refl eq_refl _); discriminate.
Defined.

(** C5 fails as stated on a body that is not JSON: the 500 page below has
    no [message], yet the error is the parser's sentence and not the
    templated one. *)
Lemma upload_failure_not_json :
  let resp :=
    mkResponse 500 (inl (JsError "Unexpected token < in JSON at position 0")) (inr "") in
  ok resp = false ∧ status resp ≠ 502%N ∧
  error (render initial (handleUpload_settle (Resolved resp)))
  = Some "Unexpected token < in JSON at position 0" ∧
  error (render initial (handleUpload_settle (Resolved resp)))
  ≠ Some (uploadFailed 500).
Proof. by vm_compute. Qed.

(** ** The effect and its sources *)

Section Effect.

Implicit Types (σ : session) (calls : list setter) (i j : nat).

Lemma ui_cleanup σ : ui (cleanup σ) = ui σ.
Proof. unfold cleanup. by destruct (eventSource σ). Qed.

Lemma ui_sseEffect σ : ui (sseEffect σ) = ui σ.
Proof.
  unfold sseEffect. destruct (_ && _); [|done].
  by destruct (ToString _).
Qed.

Lemma ui_dispatch calls σ : ui (dispatch calls σ) = render (ui σ) calls.
Proof.
  unfold dispatch. destruct (existsb _ _); [|done].
  by rewrite ui_sseEffect, ui_cleanup.
Qed.

(** Calls that leave the dependencies alone leave [isEvaluating] alone. *)
Lemma render_isEvaluating s calls :
  existsb (invalidates s) calls = false →
  isEvaluating (render s calls) = isEvaluating s.
Proof.
  assert (∀ s', isEvaluating s' = isEvaluating s →
    existsb (invalidates s) calls = false →
    isEvaluating (render s' calls) = isEvaluating s) as H; [|by apply H].
  induction calls as [|a calls IH]; intros s' Hs'; simpl; [done|].
  intros [Ha Hc]%orb_false_iff. apply IH; [|done].
  destruct a; simpl in *; try done.
  apply negb_false_iff, bool_decide_eq_true in Ha. congruence.
Qed.

Lemma live_lt i σ : live i σ = true → i < length (sources σ).
Proof.
  unfold live. destruct (sources σ !! i) eqn:H; [|done].
  intros _. by eapply lookup_lt_Some.
Qed.

Lemma live_alter i j rs u src e t m :
  live j (mkSession u (alter (λ es, mkEventSource (url es) rs) i src) e t m)
  = if decide (i = j)
    then from_option (λ _, isOpen (mkEventSource "" rs)) false (src !! i)
    else live j (mkSession u src e t m).
Proof.
  unfold live. simpl. rewrite list_lookup_alter.
  destruct (decide (i = j)) as [->|]; [|done].
  by destruct (src !! j).
Qed.

Lemma live_close_eq i σ : live i (close i σ) = false.
Proof.
  unfold close. rewrite live_alter, decide_True by done.
  by destruct (sources σ !! i).
Qed.

Lemma live_close_ne i j σ : i ≠ j → live j (close i σ) = live j σ.
Proof. intros H. unfold close. by rewrite live_alter, decide_False. Qed.

Lemma live_close_false i j σ : live j σ = false → live j (close i σ) = false.
Proof.
  intros H. destruct (decide (i = j)) as [->|];
    [apply live_close_eq | by rewrite live_close_ne].
Qed.

(** The cleanup closes the one source that was open, when that is the one
    it holds. *)
Lemma cleanup_closes σ j :
  (∀ i, live i σ = true → eventSource σ = Some i) → live j (cleanup σ) = false.
Proof.
  intros Hinv. destruct (live j σ) eqn:Hj.
  - unfold cleanup. rewrite (Hinv j Hj). apply live_close_eq.
  - unfold cleanup. destruct (eventSource σ); [by apply live_close_false | done].
Qed.

Lemma length_cleanup σ : length (sources (cleanup σ)) = length (sources σ).
Proof.
  unfold cleanup. destruct (eventSource σ); [|done].
  simpl. apply length_alter.
Qed.

Lemma unmounted_cleanup σ : unmounted (cleanup σ) = unmounted σ.
Proof. unfold cleanup. by destruct (eventSource σ). Qed.

(** The effect body on a session without an open source. *)
Lemma sseEffect_inv σ :
  unmounted σ = false → (∀ j, live j σ = false) → inv (sseEffect σ).
Proof.
  intros Hm Hnone i. unfold sseEffect.
  destruct (truthy _ && isEvaluating _) eqn:Hc.
  - destruct (ToString _) as [e|id]; unfold live; simpl.
    + intros Hi. specialize (Hnone i). unfold live in Hnone. congruence.
    + intros Hi. apply andb_true_iff in Hc as [_ Hc].
      destruct (decide (i < length (sources σ))) as [Hlt|Hge].
      * rewrite lookup_app_l in Hi by done.
        specialize (Hnone i). unfold live in Hnone. congruence.
      * destruct (decide (i = length (sources σ))) as [->|Hne]; [done|].
        rewrite lookup_ge_None_2 in Hi; [done|].
        rewrite length_app. simpl. lia.
  - unfold live. simpl. intros Hi.
    specialize (Hnone i). unfold live in Hnone. congruence.
Qed.

Lemma sseEffect_extends σ : extends σ (sseEffect σ).
Proof.
  unfold sseEffect, extends.
  destruct (truthy _ && isEvaluating _); [|done].
  destruct (ToString _) as [e|id]; [done|].
  simpl. rewrite length_app. split; [lia|].
  intros i Hi. unfold live. simpl. by rewrite lookup_app_l.
Qed.

Lemma extends_refl σ : extends σ σ.
Proof. by split. Qed.

Lemma extends_trans σ1 σ2 σ3 : extends σ1 σ2 → extends σ2 σ3 → extends σ1 σ3.
Proof.
  intros [H1 H2] [H3 H4]. split; [lia|].
  intros i Hi Hl. apply H4; [lia|]. by apply H2.
Qed.

Lemma close_extends i σ : extends σ (close i σ).
Proof.
  split; [simpl; by rewrite length_alter|].
  intros j _. apply live_close_false.
Qed.

Lemma cleanup_extends σ : extends σ (cleanup σ).
Proof.
  unfold cleanup. destruct (eventSource σ); [apply close_extends | apply extends_refl].
Qed.

Lemma dispatch_extends calls σ : extends σ (dispatch calls σ).
Proof.
  unfold dispatch. destruct (existsb _ _); [|by split].
  eapply extends_trans; [|apply sseEffect_extends].
  eapply extends_trans; [|apply cleanup_extends]. by split.
Qed.

Lemma inv_weaken σ σ' :
  inv σ →
  (∀ j, live j σ' = true → live j σ = true) →
  eventSource σ' = eventSource σ →
  isEvaluating (ui σ') = isEvaluating (ui σ) →
  unmounted σ' = unmounted σ →
  inv σ'.
Proof.
  intros Hinv Hl He Hv Hm j Hj. rewrite He, Hv, Hm. by apply Hinv, Hl.
Qed.

Lemma inv_dispatch calls σ : unmounted σ = false → inv σ → inv (dispatch calls σ).
Proof.
  intros Hm Hinv. unfold dispatch. destruct (existsb _ _) eqn:Hc.
  - apply sseEffect_inv; [by rewrite unmounted_cleanup|].
    intros j. apply cleanup_closes. intros i Hi. by apply (Hinv i).
  - apply (inv_weaken σ); try done.
    by apply render_isEvaluating.
Qed.

Lemma inv_emit out σ : inv σ → inv (emit out σ).
Proof. intros H. by apply (inv_weaken σ). Qed.

Lemma inv_close i σ : inv σ → inv (close i σ).
Proof.
  intros H. apply (inv_weaken σ); try done.
  intros j Hj. destruct (live j σ) eqn:Hl; [done|].
  by rewrite live_close_false in Hj.
Qed.

Lemma live_setReadyState i j rs σ :
  live i σ = true →
  live j (setReadyState i rs σ) = true → live j σ = true.
Proof.
  intros Hi. unfold setReadyState. rewrite live_alter.
  by destruct (decide (i = j)) as [->|].
Qed.

Lemma inv_setReadyState i rs σ : live i σ = true → inv σ → inv (setReadyState i rs σ).
Proof.
  intros Hi H. apply (inv_weaken σ); try done.
  intros j. by apply live_setReadyState.
Qed.

Lemma setReadyState_extends i rs σ : live i σ = true → extends σ (setReadyState i rs σ).
Proof.
  intros Hi. split; [simpl; by rewrite length_alter|].
  intros j _ Hj. destruct (live j (setReadyState i rs σ)) eqn:Hl; [|done].
  apply live_setReadyState in Hl; [congruence | done].
Qed.

Lemma inv_mount : inv mount.
Proof. intros i Hi%live_lt. simpl in Hi. lia. Qed.

Lemma inv_step σ e : inv σ → inv (step σ e).
Proof.
  intros Hinv. unfold step. destruct (unmounted σ) eqn:Hm; [done|].
  destruct e as [files ty| |r|r|i|i data|i fatal].
  - by apply inv_dispatch.
  - destruct (handleUpload_begin (ui σ)) as [calls out].
    apply inv_dispatch; [done | by apply inv_emit].
  - by apply inv_dispatch.
  - destruct (handleDownload (ui σ) r) as [calls out].
    apply inv_dispatch; [done | by apply inv_emit].
  - destruct (live i σ) eqn:Hi; [by apply inv_setReadyState | done].
  - destruct (live i σ) eqn:Hi; [by apply inv_dispatch | done].
  - destruct (live i σ) eqn:Hi; [|done].
    unfold onerror. apply inv_dispatch; [done|].
    by apply inv_close, inv_emit, inv_setReadyState.
Qed.

Lemma inv_run σ evs : inv σ → inv (run σ evs).
Proof.
  revert σ. induction evs as [|e evs IH]; intros σ H; [done|].
  apply IH. by apply inv_step.
Qed.

Lemma reachable_inv σ : reachable σ → inv σ.
Proof. intros [evs ->]. apply inv_run, inv_mount. Qed.

Lemma emit_extends out σ : extends σ (emit out σ).
Proof. by split. Qed.

Lemma onerror_extends i σ : extends σ (onerror i σ).
Proof.
  unfold onerror. cbv zeta.
  eapply extends_trans; [|apply dispatch_extends].
  eapply extends_trans; [|apply close_extends].
  apply emit_extends.
Qed.

Lemma extends_step σ e : extends σ (step σ e).
Proof.
  unfold step. destruct (unmounted σ); [apply extends_refl|].
  destruct e as [files ty| |r|r|i|i data|i fatal].
  - apply dispatch_extends.
  - destruct (handleUpload_begin (ui σ)) as [calls out].
    apply (extends_trans _ (emit out σ)); [by split | apply dispatch_extends].
  - apply dispatch_extends.
  - destruct (handleDownload (ui σ) r) as [calls out].
    apply (extends_trans _ (emit out σ)); [by split | apply dispatch_extends].
  - destruct (live i σ) eqn:Hi; [by apply setReadyState_extends | apply extends_refl].
  - destruct (live i σ) eqn:Hi; [apply dispatch_extends | apply extends_refl].
  - destruct (live i σ) eqn:Hi; [|apply extends_refl].
    eapply extends_trans; [by apply setReadyState_extends|].
    apply onerror_extends.
Qed.

Lemma extends_run σ evs : extends σ (run σ evs).
Proof.
  revert σ. induction evs as [|e evs IH]; intros σ; [apply extends_refl|].
  eapply extends_trans; [apply extends_step | apply IH].
Qed.

End Effect.

(** ** The log stream *)

Section Stream.

Implicit Types (σ : session) (i j : nat).

Lemma onmessage_quiet s data : existsb (invalidates s) (onmessage data) = false.
Proof. unfold onmessage. by destruct (truthy _). Qed.

Lemma step_message σ i data :
  unmounted σ = false → live i σ = true →
  step σ (Message i data)
  = mkSession (render (ui σ) (onmessage data)) (sources σ) (eventSource σ)
      (trace σ) (unmounted σ).
Proof.
  intros Hm Hi. unfold step, dispatch.
  by rewrite Hm, Hi, onmessage_quiet.
Qed.

Lemma logs_onmessage s data :
  logs (render s (onmessage data)) = logs s ++ List.filter nonblank [data].
Proof.
  unfold onmessage, nonblank. rewrite onmessage_keeps. simpl.
  destruct (negb _); simpl; [done | by rewrite app_nil_r].
Qed.

Lemma run_messages σ i payloads :
  unmounted σ = false → live i σ = true →
  logs (ui (run σ (Message i <$> payloads))) = logs (ui σ) ++ List.filter nonblank payloads.
Proof.
  revert σ. induction payloads as [|d ds IH]; intros σ Hm Hi; simpl.
  - by rewrite app_nil_r.
  - rewrite step_message by done. rewrite IH by done. simpl.
    rewrite logs_onmessage. simpl.
    destruct (nonblank d); simpl; [by rewrite <- app_assoc | by rewrite app_nil_r].
Qed.

(** C3. Of the messages delivered on the open source, the non-blank ones
    are appended to the log, one line each and in the order of arrival; the
    five payloads of the specification leave [line1] and [line2]. *)
Theorem messages_append_nonblank σ i :
  unmounted σ = false → live i σ = true →
  (∀ payloads,
     logs (ui (run σ (Message i <$> payloads)))
     = logs (ui σ) ++ List.filter nonblank payloads) ∧
  logs (ui (run σ (Message i <$> [""; "  "; "line1"; "
"; "line2"])))
  = logs (ui σ) ++ ["line1"; "line2"].
Proof.
  intros Hm Hi. split; [intros; by apply run_messages|].
  by rewrite run_messages.
Qed.

(** What [nonblank] tests is what the specification calls blank. *)
Lemma nonblank_spec d : nonblank d = true ↔ ¬ blank d.
Proof.
  unfold nonblank. rewrite negb_true_iff, <- whitespace_only_blank.
  by destruct (whitespace_only d).
Qed.

(** An error on the open source, transient or fatal. *)
Lemma step_error σ i fatal :
  unmounted σ = false → live i σ = true →
  let σ' := step σ (Error i fatal) in
  error (ui σ') = Some connectionLost ∧
  isEvaluating (ui σ') = false ∧
  uploadStatus (ui σ') = "Evaluation completed" ∧
  logs (ui σ') = logs (ui σ) ∧
  live i σ' = false.
Proof.
  intros Hm Hi. unfold step. rewrite Hm, Hi.
  pose proof (live_lt _ _ Hi) as Hlt.
  destruct (sources σ !! i) as [es|] eqn:Hes;
    [|apply lookup_ge_None in Hes; lia].
  unfold onerror. cbv zeta.
  assert (readyState <$>
            sources (close i (emit [ConsoleError]
              (setReadyState i (if fatal then CLOSED else CONNECTING) σ))) !! i
          = Some CLOSED) as ->.
  { simpl. by rewrite !list_lookup_alter_eq, Hes. }
  rewrite ui_dispatch. split_and!; try done.
  apply dispatch_extends; [simpl; by rewrite !length_alter|].
  apply live_close_eq.
Qed.

End Stream.

Lemma messages_append_nonblank_witness :
  logs (ui (run (evaluating "abc123")
              (Message 0 <$> [""; "  "; "line1"; "
"; "line2"])))
  = ["line1"; "line2"].
Proof.
  exact (proj2 (messages_append_nonblank (evaluating "abc123") 0 eq_refl eq_refl)).
Defined.

(** C2, at the failing input. The job [abc123] is streaming, one line is in
    the log, and the browser signals an error while it re-establishes the
    connection (the source is [CONNECTING], not [CLOSED]). The handler closes
    the source before it reads [readyState], so the test for a permanent
    close succeeds and the connectivity error is set all the same; the
    session leaves [Evaluating] with its log intact. *)
Theorem transient_error_reports_loss :
  let σ := run (evaluating "abc123") [Message 0 "line1"] in
  let σ' := step σ (Error 0 false) in
  live 0 σ = true ∧
  sources (setReadyState 0 CONNECTING σ) !! 0
  = Some (mkEventSource (jobUrl "abc123") CONNECTING) ∧
  error (ui σ) = None ∧
  error (ui σ') = Some connectionLost ∧
  isEvaluating (ui σ') = false ∧
  uploadStatus (ui σ') = "Evaluation completed" ∧
  logs (ui σ') = ["line1"] ∧
  live 0 σ' = false.
Proof. by vm_compute. Qed.

(** ** Uploads *)

Section Upload.

Implicit Types (σ : session) (i j k : nat) (a q : File).

Lemma step_upload σ a q :
  unmounted σ = false →
  answerScript (ui σ) = Some a → questionPaper (ui σ) = Some q →
  step σ Upload
  = dispatch uploadResets
      (emit [Fetch "POST" (API_BASE_URL +:+ "/upload-pdfs/")
               [("answer_script", a); ("question_paper", q)]] σ).
Proof.
  intros Hm Ha Hq. unfold step, handleUpload_begin. by rewrite Hm, Ha, Hq.
Qed.

(** The effect body opens nothing once [isEvaluating] is reset. *)
Lemma dispatch_resets σ :
  inv σ → unmounted σ = false →
  let σ1 := dispatch uploadResets σ in
  ui σ1 = render (ui σ) uploadResets ∧
  length (sources σ1) = length (sources σ) ∧
  (∀ i, live i σ1 = false) ∧
  unmounted σ1 = false.
Proof.
  intros Hinv Hm. cbv zeta. rewrite ui_dispatch. split; [done|].
  unfold dispatch, uploadResets. cbn [existsb invalidates orb].
  destruct (isEvaluating (ui σ)) eqn:Hv; cbn [bool_decide negb orb].
  - rewrite bool_decide_eq_false_2 by done. cbn [negb orb].
    unfold sseEffect. rewrite ui_cleanup. cbn [ui render fold_left set1 isEvaluating].
    rewrite andb_false_r. cbn [sources unmounted].
    rewrite length_cleanup, unmounted_cleanup. split_and!; try done.
    intros i. unfold live. cbn [sources].
    apply (cleanup_closes (mkSession _ _ _ _ _)).
    intros j Hj. by apply (Hinv j).
  - rewrite bool_decide_eq_true_2 by done. cbn [negb orb sources unmounted].
    split_and!; try done.
    intros i. destruct (live i σ) eqn:Hi; [|done].
    destruct (Hinv i Hi) as (_ & H & _). congruence.
Qed.

Lemma upload_begins σ a q :
  inv σ → unmounted σ = false →
  answerScript (ui σ) = Some a → questionPaper (ui σ) = Some q →
  let σ1 := step σ Upload in
  ui σ1 = render (ui σ) uploadResets ∧
  length (sources σ1) = length (sources σ) ∧
  (∀ i, live i σ1 = false) ∧
  unmounted σ1 = false.
Proof.
  intros Hinv Hm Ha Hq. cbv zeta. rewrite (step_upload σ a q) by done.
  by apply (dispatch_resets (emit _ σ)); [apply inv_emit|].
Qed.

Lemma step_dead_message σ i data : live i σ = false → step σ (Message i data) = σ.
Proof. intros Hi. unfold step. rewrite Hi. by destruct (unmounted σ). Qed.

(** C6. In every session the events lead to, at most one source is open.
    An upload that passes its guard leaves none open and creates none, so
    the subscription of the job before is closed before the next one can be
    opened, and from then on a message of a source that existed before the
    upload changes nothing, whatever happens in between. *)
Theorem one_subscription σ :
  reachable σ →
  (∀ i j, live i σ = true → live j σ = true → i = j) ∧
  (∀ a q, unmounted σ = false →
     answerScript (ui σ) = Some a → questionPaper (ui σ) = Some q →
     let σ1 := step σ Upload in
     length (sources σ1) = length (sources σ) ∧
     (∀ i, live i σ1 = false) ∧
     logs (ui σ1) = [] ∧
     ∀ evs i data, i < length (sources σ) →
       live i (run σ1 evs) = false ∧
       step (run σ1 evs) (Message i data) = run σ1 evs).
Proof.
  intros Hinv%reachable_inv. split.
  - intros i j Hi Hj.
    destruct (Hinv i Hi) as (Ei & _), (Hinv j Hj) as (Ej & _). congruence.
  - intros a q Hm Ha Hq. cbv zeta.
    destruct (upload_begins σ a q Hinv Hm Ha Hq) as (Hui & Hlen & Hnone & _).
    split_and!; [done | done | by rewrite Hui |].
    intros evs i data Hi.
    assert (live i (run (step σ Upload) evs) = false) as Hdead.
    { apply extends_run; [lia | apply Hnone]. }
    split; [done | by apply step_dead_message].
Qed.

(** Setter calls that set [isEvaluating] while it is off, for a job id the
    effect can name: the effect runs and opens the source of that id. *)
Lemma dispatch_opens σ calls text :
  (∀ i, live i σ = false) → unmounted σ = false →
  existsb (invalidates (ui σ)) calls = true →
  truthy (evaluationId (render (ui σ) calls)) = true →
  isEvaluating (render (ui σ) calls) = true →
  ToString (evaluationId (render (ui σ) calls)) = inr text →
  let σ2 := dispatch calls σ in
  let k := length (sources σ) in
  eventSource σ2 = Some k ∧
  sources σ2 !! k = Some (mkEventSource (jobUrl text) CONNECTING) ∧
  (∀ j, live j σ2 = true → j = k) ∧
  trace σ2 = trace (cleanup σ) ++ [NewEventSource (jobUrl text)] ∧
  unmounted σ2 = false.
Proof.
  intros Hnone Hm Hc Ht Hv Hs. cbv zeta. unfold dispatch. rewrite Hc.
  set (σ' := mkSession (render (ui σ) calls) (sources σ) (eventSource σ)
               (trace σ) (unmounted σ)).
  assert (length (sources (cleanup σ')) = length (sources σ)) as Hlen
    by (by rewrite length_cleanup).
  assert (∀ j, live j (cleanup σ') = false) as Hdead.
  { intros j. apply cleanup_closes. intros i Hi.
    specialize (Hnone i). unfold live in *. simpl in Hi. congruence. }
  unfold sseEffect. rewrite ui_cleanup. cbn [ui σ'].
  rewrite Ht, Hv, Hs. cbn [andb eventSource sources trace unmounted].
  rewrite unmounted_cleanup, Hlen. split_and!; try done.
  - rewrite <- Hlen. by rewrite list_lookup_middle.
  - intros j Hj. unfold live in Hj. cbn [sources] in Hj.
    destruct (decide (j < length (sources σ))) as [Hlt|Hge].
    + rewrite lookup_app_l in Hj by (rewrite Hlen; lia).
      specialize (Hdead j). unfold live in Hdead. congruence.
    + destruct (decide (j = length (sources σ))) as [|Hne]; [done|].
      rewrite lookup_ge_None_2 in Hj; [done|].
      rewrite length_app, Hlen. simpl. lia.
  - unfold cleanup, σ'. cbn [eventSource]. by destruct (eventSource σ).
Qed.

Lemma uploadTry_accepts resp data id :
  ok resp = true → json resp = inr data → get data "evaluation_id" = inr id →
  uploadTry (Resolved resp) = inr id.
Proof.
  intros Hok Hj Hg. unfold uploadTry.
  assert ((status resp =? 502)%N = false) as ->.
  { unfold ok in Hok. apply andb_true_iff in Hok as [_ H%N.leb_le].
    apply N.eqb_neq. lia. }
  rewrite Hj. simpl. by rewrite Hok.
Qed.

(** C1, as the code has it. When both slots are filled and the response is
    [ok] with a JSON body whose [evaluation_id] is a text other than the
    empty one, the upload stores that id, sets the in-progress status, leaves
    the session evaluating with an empty log, and the effect opens a source
    on the log URL of that id, the only source then open. *)
Theorem upload_success_opens_stream σ a q resp data id :
  reachable σ → unmounted σ = false →
  answerScript (ui σ) = Some a → questionPaper (ui σ) = Some q →
  ok resp = true → json resp = inr data →
  get data "evaluation_id" = inr (VStr id) → id ≠ "" →
  let σ2 := run σ [Upload; UploadSettled (Resolved resp)] in
  evaluationId (ui σ2) = VStr id ∧
  uploadStatus (ui σ2) = "Evaluation in progress..." ∧
  isEvaluating (ui σ2) = true ∧
  isLoading (ui σ2) = false ∧
  logs (ui σ2) = [] ∧
  ∃ k, eventSource σ2 = Some k ∧
       sources σ2 !! k = Some (mkEventSource (jobUrl id) CONNECTING) ∧
       (∀ j, live j σ2 = true → j = k) ∧
       last (trace σ2) = Some (NewEventSource (jobUrl id)).
Proof.
  intros Hinv%reachable_inv Hm Ha Hq Hok Hj Hg Hid. cbv zeta.
  destruct (upload_begins σ a q Hinv Hm Ha Hq) as (Hui & Hlen & Hnone & Hm1).
  change (run σ [Upload; UploadSettled (Resolved resp)])
    with (step (step σ Upload) (UploadSettled (Resolved resp))).
  set (σ1 := step σ Upload) in *.
  unfold step. rewrite Hm1.
  unfold handleUpload_settle.
  rewrite (uploadTry_accepts resp data (VStr id)) by done.
  rewrite ui_dispatch, Hui. split_and!; try done.
  destruct (dispatch_opens σ1
    ([setEvaluationId (VStr id); setUploadStatus "Evaluation in progress...";
      setIsEvaluating true] ++ [setIsLoading false]) id)
    as (He & Hs & Hl & Ht & _).
  - done.
  - done.
  - rewrite Hui. simpl. apply orb_true_r.
  - simpl. by rewrite bool_decide_eq_false_2.
  - done.
  - done.
  - exists (length (sources σ1)). split_and!; try done.
    rewrite Ht. apply last_snoc.
Qed.

(** C1 fails as stated when the id in the body is the empty text: the
    upload is accepted and the session is evaluating, but the effect, which
    tests the id for truth, opens no source. *)
Lemma upload_empty_id_opens_nothing :
  let σ2 := run mount (chosen ++ [Upload; UploadSettled (accepted "")]) in
  uploadTry (accepted "") = inr (VStr "") ∧
  evaluationId (ui σ2) = VStr "" ∧
  uploadStatus (ui σ2) = "Evaluation in progress..." ∧
  isEvaluating (ui σ2) = true ∧
  sources σ2 = [] ∧
  eventSource σ2 = None ∧
  ¬ (∃ k, live k σ2 = true).
Proof.
  vm_compute. split_and!; try done. by intros [k Hk].
Qed.

(** ** Failed uploads and the guards *)

Lemma failed_throws r : failed r → ∃ e, uploadTry r = inl e.
Proof.
  intros [e|resp H|resp H|resp e H]; unfold uploadTry.
  - by exists e.
  - rewrite H. by eexists.
  - destruct (status resp =? 502)%N; [by eexists|].
    destruct (json resp) as [e|data]; [by exists e|]. simpl. rewrite H. simpl.
    destruct (get data "message") as [e|m]; [by exists e|]. simpl.
    destruct (ToString _) as [e|text]; [by exists e | by eexists].
  - destruct (status resp =? 502)%N; [by eexists|].
    rewrite H. by exists e.
Qed.

Lemma unmounted_dispatch_off calls σ :
  isEvaluating (render (ui σ) calls) = false →
  unmounted (dispatch calls σ) = unmounted σ.
Proof.
  intros H. unfold dispatch. destruct (existsb _ _); [|done].
  unfold sseEffect. rewrite ui_cleanup. cbn [ui].
  rewrite H, andb_false_r. cbn [unmounted]. by rewrite unmounted_cleanup.
Qed.

Lemma dispatch_quiet calls σ :
  existsb (invalidates (ui σ)) calls = false →
  dispatch calls σ
  = mkSession (render (ui σ) calls) (sources σ) (eventSource σ) (trace σ)
      (unmounted σ).
Proof. intros H. unfold dispatch. by rewrite H. Qed.

Lemma handleDownload_quiet s0 s r :
  existsb (invalidates s0) (handleDownload s r).1 = false.
Proof.
  unfold handleDownload. destruct (negb _); [done|].
  by destruct (downloadTry _ _) as [out [e|[]]].
Qed.

Lemma handleDownload_request s r id :
  evaluationId s = VStr id → id ≠ "" →
  ∃ rest, (handleDownload s r).2 = Fetch "GET" (resultUrl id) [] :: rest.
Proof.
  intros Hs Hid. unfold handleDownload, downloadTry. rewrite Hs. simpl.
  rewrite bool_decide_eq_false_2 by done. simpl.
  destruct r as [e|resp]; [by eexists|].
  destruct (status resp =? 502)%N; [by eexists|].
  destruct (negb (ok resp)); [by eexists|].
  destruct (blob resp); by eexists.
Qed.

Lemma step_download σ r :
  unmounted σ = false →
  step σ (Download r)
  = mkSession (render (ui σ) (handleDownload (ui σ) r).1) (sources σ)
      (eventSource σ) (trace σ ++ (handleDownload (ui σ) r).2) (unmounted σ).
Proof.
  intros Hm. unfold step. rewrite Hm.
  pose proof (handleDownload_quiet (ui σ) (ui σ) r) as Hq.
  destruct (handleDownload (ui σ) r) as [calls out]. cbv beta iota.
  rewrite dispatch_quiet by exact Hq. simpl. by rewrite Hm.
Qed.

(** C10. An upload that fails (no response, status 502, another status
    that is not [ok], or a body that does not parse) leaves the job id of the
    upload before in place although the log was emptied when the attempt
    began; a download after it asks for the result of that earlier job. *)
Theorem failed_upload_keeps_job σ a q r :
  unmounted σ = false →
  answerScript (ui σ) = Some a → questionPaper (ui σ) = Some q →
  failed r →
  let σ2 := run σ [Upload; UploadSettled r] in
  evaluationId (ui σ2) = evaluationId (ui σ) ∧
  logs (ui σ2) = [] ∧
  (∃ text, error (ui σ2) = Some text) ∧
  ∀ r',
    trace (step σ2 (Download r')) = trace σ2 ++ (handleDownload (ui σ) r').2 ∧
    ∀ id, evaluationId (ui σ) = VStr id → id ≠ "" →
      ∃ rest, trace (step σ2 (Download r'))
              = trace σ2 ++ Fetch "GET" (resultUrl id) [] :: rest.
Proof.
  intros Hm Ha Hq [e He]%failed_throws. cbv zeta.
  change (run σ [Upload; UploadSettled r])
    with (step (step σ Upload) (UploadSettled r)).
  assert (ui (step σ Upload) = render (ui σ) uploadResets) as Hui.
  { rewrite (step_upload σ a q) by done. by rewrite ui_dispatch. }
  assert (unmounted (step σ Upload) = false) as Hm1.
  { rewrite (step_upload σ a q) by done. by rewrite unmounted_dispatch_off. }
  set (σ1 := step σ Upload) in *.
  assert (step σ1 (UploadSettled r)
          = dispatch ([setError (Some (messageOf e "An unknown error occurred"));
                       setUploadStatus ""] ++ [setIsLoading false]) σ1) as Hstep.
  { unfold step, handleUpload_settle. by rewrite Hm1, He. }
  rewrite Hstep. rewrite dispatch_quiet by done.
  cbn [ui]. rewrite Hui. split_and!; [done | done | by eexists |].
  intros r'. rewrite step_download by done. cbn [ui trace].
  assert (∀ s', evaluationId s' = evaluationId (ui σ) →
            handleDownload s' r' = handleDownload (ui σ) r') as Hext.
  { intros s' Hs'. unfold handleDownload. by rewrite Hs'. }
  rewrite Hext by done. split; [done|].
  intros id Hid Hne.
  destruct (handleDownload_request (ui σ) r' id Hid Hne) as [rest ->].
  by exists rest.
Qed.

(** C8. With a slot empty [handleUpload] sends nothing and changes nothing
    but the error; without a job id [handleDownload] sends nothing and
    changes nothing at all. *)
Theorem guards_send_nothing σ r :
  (unmounted σ = false →
   answerScript (ui σ) = None ∨ questionPaper (ui σ) = None →
   step σ Upload
   = mkSession
       (set1 (ui σ)
          (setError (Some "Please upload both answer script and question paper")))
       (sources σ) (eventSource σ) (trace σ) (unmounted σ)) ∧
  (truthy (evaluationId (ui σ)) = false → step σ (Download r) = σ).
Proof.
  split.
  - intros Hm Hslot. unfold step. rewrite Hm.
    rewrite handleUpload_begin_guard by done.
    rewrite dispatch_quiet by done. cbn. by rewrite app_nil_r, Hm.
  - intros Hid. unfold step. destruct (unmounted σ) eqn:Hm; [done|].
    rewrite handleDownload_no_job by done.
    rewrite dispatch_quiet by done. cbn. rewrite app_nil_r.
    destruct σ; simpl in *. by subst.
Qed.

End Upload.

(** A second upload while [abc123] streams: the request, the close of the
    open source, and only then the source of the next job. *)
Example second_upload_trace :
  trace (run (evaluating "abc123") [Upload; UploadSettled (accepted "def456")])
  = [ Fetch "POST" (API_BASE_URL +:+ "/upload-pdfs/")
        [("answer_script", pdf "answers.pdf"); ("question_paper", pdf "paper.pdf")];
      NewEventSource (jobUrl "abc123");
      Fetch "POST" (API_BASE_URL +:+ "/upload-pdfs/")
        [("answer_script", pdf "answers.pdf"); ("question_paper", pdf "paper.pdf")];
      Close 0;
      NewEventSource (jobUrl "def456") ].
Proof. reflexivity. Qed.

Lemma one_subscription_witness :
  let σ1 := step (evaluating "abc123") Upload in
  live 0 (evaluating "abc123") = true ∧
  (∀ i, live i σ1 = false) ∧
  ∀ evs data, step (run σ1 evs) (Message 0 data) = run σ1 evs.
Proof.
  destruct (one_subscription (evaluating "abc123")) as [_ H].
  { exists (chosen ++ [Upload; UploadSettled (accepted "abc123"); Connected 0]).
    reflexivity. }
  destruct (H (pdf "answers.pdf") (pdf "paper.pdf") eq_refl eq_refl eq_refl)
    as (_ & Hnone & _ & Hmsg).
  split; [reflexivity|]. split; [exact Hnone|].
  intros evs data. apply (Hmsg evs 0 data). vm_compute. lia.
Defined.

Lemma upload_success_opens_stream_witness :
  let σ2 := run (run mount chosen) [Upload; UploadSettled (accepted "abc123")] in
  evaluationId (ui σ2) = VStr "abc123" ∧
  uploadStatus (ui σ2) = "Evaluation in progress..." ∧
  isEvaluating (ui σ2) = true ∧
  isLoading (ui σ2) = false ∧
  logs (ui σ2) = [] ∧
  ∃ k, eventSource σ2 = Some k ∧
       sources σ2 !! k = Some (mkEventSource (jobUrl "abc123") CONNECTING) ∧
       (∀ j, live j σ2 = true → j = k) ∧
       last (trace σ2) = Some (NewEventSource (jobUrl "abc123")).
Proof.
  refine (upload_success_opens_stream (run mount chosen)
            (pdf "answers.pdf") (pdf "paper.pdf") (acceptedResponse "abc123")
            _ "abc123" _ eq_refl eq_refl eq_refl eq_refl eq_refl eq_refl _).
  - exists chosen. reflexivity.
  - discriminate.
Defined.

Lemma failed_upload_keeps_job_witness :
  let σ2 := run (finished "abc123") [Upload; UploadSettled (Resolved badGateway)] in
  logs (ui (finished "abc123")) = ["line1"] ∧
  evaluationId (ui σ2) = VStr "abc123" ∧
  logs (ui σ2) = [] ∧
  ∃ rest, trace (step σ2 (Download (Resolved graded)))
          = trace σ2 ++ Fetch "GET" (resultUrl "abc123") [] :: rest.
Proof.
  destruct (failed_upload_keeps_job (finished "abc123")
              (pdf "answers.pdf") (pdf "paper.pdf") (Resolved badGateway)
              eq_refl eq_refl eq_refl (failed_unavailable badGateway eq_refl))
    as (Hid & Hlogs & _ & Hdown).
  split; [reflexivity|]. split; [exact Hid|]. split; [exact Hlogs|].
  refine (proj2 (Hdown (Resolved graded)) "abc123" eq_refl _). discriminate.
Defined.

Lemma guards_send_nothing_witness :
  step mount Upload
  = mkSession
      (set1 initial
         (setError (Some "Please upload both answer script and question paper")))
      [] None [] false ∧
  step mount (Download (Resolved graded)) = mount.
Proof.
  destruct (guards_send_nothing mount (Resolved graded)) as [Hup Hdown].
  split; [exact (Hup eq_refl (or_introl eq_refl)) | exact (Hdown eq_refl)].
Defined.

(** ** The stream and the stored job *)

Section Job.

Implicit Types (σ : session) (calls : list setter) (i j k : nat).

Lemma Object_is_eq (a b : value) : Object_is a b = true → a = b.
Proof.
  destruct a, b; simpl; try done; intros H%bool_decide_eq_true; congruence.
Qed.

(** Calls that leave the dependencies alone leave [evaluationId] alone. *)
Lemma render_evaluationId s calls :
  existsb (invalidates s) calls = false →
  evaluationId (render s calls) = evaluationId s.
Proof.
  assert (∀ s', evaluationId s' = evaluationId s →
    existsb (invalidates s) calls = false →
    evaluationId (render s' calls) = evaluationId s) as H; [|by apply H].
  induction calls as [|a calls IH]; intros s' Hs'; simpl; [done|].
  intros [Ha Hc]%orb_false_iff. apply IH; [|done].
  destruct a; simpl in *; try done.
  apply negb_false_iff, Object_is_eq in Ha. congruence.
Qed.

Lemma live_lookup k σ :
  live k σ = true ↔ ∃ es, sources σ !! k = Some es ∧ isOpen es = true.
Proof.
  unfold live. destruct (sources σ !! k) as [es|]; simpl.
  - split; [by exists es | by intros (? & [= <-] & ?)].
  - split; [done | by intros (? & ? & ?)].
Qed.

(** What the effect body leaves behind when no source was open. *)
Lemma sseEffect_streams σ : (∀ j, live j σ = false) → streams (sseEffect σ).
Proof.
  intros Hnone k es. unfold sseEffect.
  destruct (truthy _ && isEvaluating _) eqn:Hc.
  - destruct (ToString _) as [e|id] eqn:Hs; simpl.
    + intros Hk Ho. specialize (Hnone k). unfold live in Hnone.
      rewrite Hk in Hnone. simpl in Hnone. congruence.
    + intros Hk Ho. apply andb_true_iff in Hc as [Ht _].
      destruct (decide (k < length (sources σ))) as [Hlt|Hge].
      * rewrite lookup_app_l in Hk by done.
        specialize (Hnone k). unfold live in Hnone.
        rewrite Hk in Hnone. simpl in Hnone. congruence.
      * destruct (decide (k = length (sources σ))) as [->|Hne].
        -- rewrite list_lookup_middle in Hk by done. injection Hk as <-.
           split; [done|]. by exists id.
        -- rewrite lookup_ge_None_2 in Hk; [done|].
           rewrite length_app. simpl. lia.
  - simpl. intros Hk Ho. specialize (Hnone k). unfold live in Hnone.
    rewrite Hk in Hnone. simpl in Hnone. congruence.
Qed.

Lemma streams_dispatch calls σ : inv σ → streams σ → streams (dispatch calls σ).
Proof.
  intros Hinv Hs. unfold dispatch. destruct (existsb _ _) eqn:Hc.
  - apply sseEffect_streams. intros j. apply cleanup_closes.
    intros i Hi. by apply (Hinv i).
  - intros k es Hk Ho. simpl in *. rewrite render_evaluationId by done.
    by apply (Hs k es).
Qed.

(** Changing the state of a source, or closing it, keeps its URL. *)
Lemma streams_alter i rs u src e t m :
  streams (mkSession u src e t m) →
  (rs ≠ CLOSED → from_option isOpen false (src !! i) = true) →
  streams (mkSession u (alter (λ es, mkEventSource (url es) rs) i src) e t m).
Proof.
  intros Hs Hi k es. simpl. rewrite list_lookup_alter.
  destruct (decide (i = k)) as [->|Hne]; [|apply (Hs k es)].
  destruct (src !! k) as [es0|] eqn:Hk; [|done]. simpl.
  intros [= <-] Ho. simpl.
  assert (rs ≠ CLOSED) as Hrs by (intros ->; done).
  apply (Hs k es0); [done|]. by apply Hi.
Qed.

Lemma streams_step σ e : inv σ → streams σ → streams (step σ e).
Proof.
  intros Hinv Hs. unfold step. destruct (unmounted σ) eqn:Hm; [done|].
  destruct e as [files ty| |r|r|i|i data|i fatal].
  - by apply streams_dispatch.
  - destruct (handleUpload_begin (ui σ)) as [calls out].
    apply streams_dispatch; [by apply inv_emit | done].
  - by apply streams_dispatch.
  - destruct (handleDownload (ui σ) r) as [calls out].
    apply streams_dispatch; [by apply inv_emit | done].
  - destruct (live i σ) eqn:Hi; [|done].
    apply streams_alter; [by destruct σ | done].
  - destruct (live i σ) eqn:Hi; [by apply streams_dispatch | done].
  - destruct (live i σ) eqn:Hi; [|done].
    unfold onerror. apply streams_dispatch.
    + by apply inv_close, inv_emit, inv_setReadyState.
    + apply streams_alter; [|done].
      apply (streams_alter i (if fatal then CLOSED else CONNECTING));
        [by destruct σ | done].
Qed.

Lemma streams_run σ evs : inv σ → streams σ → streams (run σ evs).
Proof.
  revert σ. induction evs as [|e evs IH]; intros σ Hinv Hs; [done|].
  apply IH; [by apply inv_step | by apply streams_step].
Qed.

Lemma reachable_streams σ : reachable σ → streams σ.
Proof.
  intros [evs ->]. apply streams_run; [apply inv_mount|].
  intros k es Hk%lookup_lt_Some. simpl in Hk. lia.
Qed.

Lemma live_job σ k :
  reachable σ → live k σ = true →
  unmounted σ = false ∧ isEvaluating (ui σ) = true ∧
  truthy (evaluationId (ui σ)) = true.
Proof.
  intros Hr Hk. destruct (reachable_inv σ Hr k Hk) as (_ & Hv & Hm).
  apply live_lookup in Hk as (es & Hes & Ho).
  by destruct (reachable_streams σ Hr k es Hes Ho) as (Ht & _).
Qed.

(** X1. In every session the events lead to, an open source is the one the
    effect holds, the component is mounted and evaluating, the stored id is
    truthy, and the source streams the log URL of that id. *)
Theorem open_source_is_stored_job σ k :
  reachable σ → live k σ = true →
  eventSource σ = Some k ∧
  unmounted σ = false ∧
  isEvaluating (ui σ) = true ∧
  truthy (evaluationId (ui σ)) = true ∧
  ∃ text, ToString (evaluationId (ui σ)) = inr text ∧
          url <$> sources σ !! k = Some (jobUrl text).
Proof.
  intros Hr Hk.
  destruct (reachable_inv σ Hr k Hk) as (He & Hv & Hm).
  apply live_lookup in Hk as (es & Hes & Ho).
  destruct (reachable_streams σ Hr k es Hes Ho) as (Ht & text & Hs & Hu).
  split_and!; try done. exists text. by rewrite Hes, <- Hu.
Qed.

End Job.

Section Served.

Implicit Types (σ : session) (calls : list setter) (i j k : nat).

Lemma served_dispatch calls σ : served σ → served (dispatch calls σ).
Proof.
  intros Hs. unfold dispatch. destruct (existsb _ _) eqn:Hc.
  - unfold sseEffect. rewrite ui_cleanup. cbn [ui].
    destruct (truthy _ && isEvaluating _) eqn:Hcond.
    + destruct (ToString _) as [e|id]; [by intros ?|].
      intros _ _ _. eexists. unfold live. cbn [sources].
      by rewrite list_lookup_middle.
    + intros _ Hv Ht. cbn [ui] in *. by rewrite Hv, Ht in Hcond.
  - intros Hm Hv Ht. cbn [ui unmounted] in *.
    rewrite render_isEvaluating in Hv by done.
    rewrite render_evaluationId in Ht by done.
    destruct (Hs Hm Hv Ht) as [k Hk]. by exists k.
Qed.

Lemma served_step σ e : served σ → served (step σ e).
Proof.
  intros Hs. unfold step. destruct (unmounted σ) eqn:Hm; [done|].
  destruct e as [files ty| |r|r|i|i data|i fatal].
  - by apply served_dispatch.
  - destruct (handleUpload_begin (ui σ)) as [calls out]. by apply served_dispatch.
  - by apply served_dispatch.
  - destruct (handleDownload (ui σ) r) as [calls out]. by apply served_dispatch.
  - destruct (live i σ) eqn:Hi; [|done].
    intros _ _ _. exists i. unfold setReadyState. rewrite live_alter, decide_True by done.
    unfold live in Hi. by destruct (sources σ !! i).
  - destruct (live i σ) eqn:Hi; [by apply served_dispatch | done].
  - destruct (live i σ) eqn:Hi; [|done].
    intros _ Hv _.
    destruct (step_error σ i fatal Hm Hi) as (_ & Hv' & _).
    unfold step in Hv'. rewrite Hm, Hi in Hv'. congruence.
Qed.

(** X2. In every session the events lead to, a mounted component that is
    evaluating under a truthy id has an open source: the session is never
    left evaluating a job it can name without the stream of that job. *)
Theorem evaluating_has_stream σ :
  reachable σ →
  unmounted σ = false → isEvaluating (ui σ) = true →
  truthy (evaluationId (ui σ)) = true →
  ∃ k, live k σ = true ∧ eventSource σ = Some k.
Proof.
  intros Hr Hm Hv Ht.
  assert (served σ) as Hs.
  { destruct Hr as [evs ->]. clear. induction evs as [|e evs IH] using rev_ind.
    - by intros _ ?.
    - unfold run. rewrite fold_left_app. by apply served_step. }
  destruct (Hs Hm Hv Ht) as [k Hk]. exists k. split; [done|].
  by destruct (reachable_inv σ Hr k Hk).
Qed.

Lemma dispatch_keeps_closed calls σ :
  (∀ j, live j σ = false) →
  truthy (evaluationId (render (ui σ) calls)) = false →
  (∀ j, live j (dispatch calls σ) = false) ∧
  sources (dispatch calls σ) = sources σ ∧
  unmounted (dispatch calls σ) = unmounted σ.
Proof.
  intros Hnone Ht.
  assert (∀ σ', sources σ' = sources σ → sources (cleanup σ') = sources σ) as Hsrc.
  { intros σ' Heq. unfold cleanup. destruct (eventSource σ') as [i|]; [|done].
    simpl. rewrite Heq. specialize (Hnone i). unfold live in Hnone.
    apply list_eq. intros j. rewrite list_lookup_alter.
    destruct (decide (i = j)) as [<-|]; [|done].
    by destruct (sources σ !! i) as [[u []]|]. }
  unfold dispatch. destruct (existsb _ _);
    [|split_and!; [exact Hnone | done | done]].
  unfold sseEffect. rewrite ui_cleanup. cbn [ui]. rewrite Ht. cbn [andb].
  split_and!.
  - intros j. unfold live. cbn [sources]. rewrite Hsrc by done. apply Hnone.
  - cbn [sources]. by rewrite Hsrc.
  - cbn [unmounted]. by rewrite unmounted_cleanup.
Qed.

(** X3. An [ok] response whose body gives a falsy [evaluation_id] (none at
    all, [null], the empty text, zero) is taken for a success all the same:
    the value is stored, the status says the evaluation is in progress, no
    error is set, the session is evaluating, and no source is open. *)
Theorem upload_accepts_falsy_id σ a q resp data id :
  reachable σ → unmounted σ = false →
  answerScript (ui σ) = Some a → questionPaper (ui σ) = Some q →
  ok resp = true → json resp = inr data →
  get data "evaluation_id" = inr id → truthy id = false →
  let σ2 := run σ [Upload; UploadSettled (Resolved resp)] in
  evaluationId (ui σ2) = id ∧
  uploadStatus (ui σ2) = "Evaluation in progress..." ∧
  error (ui σ2) = None ∧
  isEvaluating (ui σ2) = true ∧
  isLoading (ui σ2) = false ∧
  unmounted σ2 = false ∧
  ∀ k, live k σ2 = false.
Proof.
  intros Hinv%reachable_inv Hm Ha Hq Hok Hj Hg Hid. cbv zeta.
  destruct (upload_begins σ a q Hinv Hm Ha Hq) as (Hui & Hlen & Hnone & Hm1).
  change (run σ [Upload; UploadSettled (Resolved resp)])
    with (step (step σ Upload) (UploadSettled (Resolved resp))).
  set (σ1 := step σ Upload) in *.
  unfold step. rewrite Hm1. unfold handleUpload_settle.
  rewrite (uploadTry_accepts resp data id) by done.
  rewrite ui_dispatch, Hui.
  edestruct (dispatch_keeps_closed
    ([setEvaluationId id; setUploadStatus "Evaluation in progress...";
      setIsEvaluating true] ++ [setIsLoading false]) σ1) as (Hdead & _ & Hm2);
    [done | by rewrite Hui |].
  split_and!; try done. by rewrite Hm2.
Qed.

End Served.

Lemma evaluating_has_stream_witness :
  ∃ k, live k (evaluating "abc123") = true ∧ eventSource (evaluating "abc123") = Some k.
Proof.
  refine (evaluating_has_stream (evaluating "abc123") _ eq_refl eq_refl eq_refl).
  exists (chosen ++ [Upload; UploadSettled (accepted "abc123"); Connected 0]).
  reflexivity.
Defined.

Lemma open_source_is_stored_job_witness :
  eventSource (evaluating "abc123") = Some 0 ∧
  unmounted (evaluating "abc123") = false ∧
  isEvaluating (ui (evaluating "abc123")) = true ∧
  truthy (evaluationId (ui (evaluating "abc123"))) = true ∧
  ∃ text, ToString (evaluationId (ui (evaluating "abc123"))) = inr text ∧
          url <$> sources (evaluating "abc123") !! 0 = Some (jobUrl text).
Proof.
  refine (open_source_is_stored_job (evaluating "abc123") 0 _ eq_refl).
  exists (chosen ++ [Upload; UploadSettled (accepted "abc123"); Connected 0]).
  reflexivity.
Defined.

Lemma upload_accepts_falsy_id_witness :
  let σ2 := run (run mount chosen)
              [Upload; UploadSettled (Resolved (mkResponse 201 (inr (VObj [])) (inr "")))] in
  evaluationId (ui σ2) = VUndefined ∧
  uploadStatus (ui σ2) = "Evaluation in progress..." ∧
  error (ui σ2) = None ∧
  isEvaluating (ui σ2) = true ∧
  isLoading (ui σ2) = false ∧
  unmounted σ2 = false ∧
  ∀ k, live k σ2 = false.
Proof.
  refine (upload_accepts_falsy_id (run mount chosen)
            (pdf "answers.pdf") (pdf "paper.pdf")
            (mkResponse 201 (inr (VObj [])) (inr "")) (VObj []) VUndefined
            _ eq_refl eq_refl eq_refl eq_refl eq_refl eq_refl eq_refl).
  exists chosen. reflexivity.
Defined.

(** ** Events on a closed source, downloads, file inputs *)

Section Frames.

Implicit Types (σ τ : session) (i j k : nat).

Lemma step_dead σ i e :
  live i σ = false →
  e = Connected i ∨ (∃ d, e = Message i d) ∨ (∃ f, e = Error i f) →
  step σ e = σ.
Proof.
  intros Hi He. unfold step. destruct (unmounted σ); [done|].
  destruct He as [->|[[d ->]|[f ->]]]; by rewrite Hi.
Qed.

(** X4. The error handler runs once for a source: after the first error on
    an open source, whatever else happens, a further error, a message or a
    connection notice for that source changes nothing. *)
Theorem error_handled_once σ i fatal evs :
  unmounted σ = false → live i σ = true →
  let τ := run (step σ (Error i fatal)) evs in
  (∀ f, step τ (Error i f) = τ) ∧
  (∀ d, step τ (Message i d) = τ) ∧
  step τ (Connected i) = τ.
Proof.
  intros Hm Hi. cbv zeta.
  destruct (step_error σ i fatal Hm Hi) as (_ & _ & _ & _ & Hdead).
  assert (i < length (sources (step σ (Error i fatal)))) as Hlt.
  { destruct (extends_step σ (Error i fatal)) as [Hlen _].
    apply live_lt in Hi. lia. }
  assert (live i (run (step σ (Error i fatal)) evs) = false) as Hrun
    by (by apply extends_run).
  split_and!; intros; apply (step_dead _ i); eauto.
Qed.

(** X5. A download with an id the handler can use sends one request for
    the result of that id and then does one of two things: when the response
    is [ok] and its body reads, it saves the file and calls no setter (an
    error shown before stays); in every other case it sets an error and
    saves nothing. *)
Theorem handleDownload_outcome (s : state) (r : settled) (text : string) :
  truthy (evaluationId s) = true → ToString (evaluationId s) = inr text →
  (∃ resp b, r = Resolved resp ∧ ok resp = true ∧ blob resp = inr b ∧
     handleDownload s r
     = ([], [Fetch "GET" (resultUrl text) []; SaveAs (savedName text) b])) ∨
  (¬ (∃ resp b, r = Resolved resp ∧ ok resp = true ∧ blob resp = inr b) ∧
   ∃ msg, handleDownload s r
          = ([setError (Some msg)], [Fetch "GET" (resultUrl text) []])).
Proof.
  intros Ht Hs. unfold handleDownload, downloadTry. rewrite Ht, Hs. simpl.
  destruct r as [e|resp].
  - right. split; [by intros (? & ? & ? & _)|]. by eexists.
  - destruct (status resp =? 502)%N eqn:H502.
    { right. split; [|by eexists].
      intros (resp' & b & [= <-] & Hok & _). apply N.eqb_eq in H502.
      unfold ok in Hok. rewrite H502 in Hok. done. }
    destruct (ok resp) eqn:Hok; simpl.
    + destruct (blob resp) as [e|b] eqn:Hb.
      * right. split; [|by eexists].
        intros (resp' & b & [= <-] & _ & Hb'). congruence.
      * left. by exists resp, b.
    + right. split; [|by eexists].
      intros (resp' & b & [= <-] & Hok' & _). congruence.
Qed.

Lemma handleDownload_calls (s s0 : state) (r : settled) :
  ∃ e, render s0 (handleDownload s r).1 = set1 s0 (setError e).
Proof.
  unfold handleDownload. destruct (negb _).
  - exists (error s0). by destruct s0.
  - destruct (downloadTry _ _) as [out [e|[]]]; simpl.
    + by eexists.
    + exists (error s0). by destruct s0.
Qed.

(** X6. A download, whatever comes of it, leaves the stream alone: no
    source is opened or closed, the component stays mounted or not as it
    was, and of the state only the error may change. *)
Theorem download_leaves_stream σ (r : settled) :
  let σ' := step σ (Download r) in
  sources σ' = sources σ ∧
  eventSource σ' = eventSource σ ∧
  unmounted σ' = unmounted σ ∧
  ∃ e, ui σ' = set1 (ui σ) (setError e).
Proof.
  cbv zeta. destruct (unmounted σ) eqn:Hm.
  - unfold step. rewrite Hm. split_and!; try done.
    exists (error (ui σ)). by destruct (ui σ).
  - rewrite step_download by done. simpl. split_and!; try done.
    apply handleDownload_calls.
Qed.

Lemma handleFileChange_quiet s files ty :
  existsb (invalidates s) (handleFileChange files ty) = false.
Proof.
  unfold handleFileChange. destruct (files ≫= head) as [file|]; [|done].
  destruct (bool_decide _); [by destruct ty | done].
Qed.

Lemma handleFileChange_keeps s files ty :
  let s' := render s (handleFileChange files ty) in
  evaluationId s' = evaluationId s ∧ isLoading s' = isLoading s ∧
  logs s' = logs s ∧ isEvaluating s' = isEvaluating s.
Proof.
  unfold handleFileChange. destruct (files ≫= head) as [file|]; [|done].
  destruct (bool_decide _); [by destruct ty | done].
Qed.

(** X7. Choosing a file, valid or not, touches nothing but the slot of its
    input and the error: the other slot, the job id, the status, the log and
    both flags stay, nothing is sent, and no source is opened or closed. *)
Theorem file_change_frame σ (files : option (list File)) (ty : slot) :
  let σ' := step σ (FileChange files ty) in
  let other := match ty with answer => question | question => answer end in
  slotOf other (ui σ') = slotOf other (ui σ) ∧
  evaluationId (ui σ') = evaluationId (ui σ) ∧
  isLoading (ui σ') = isLoading (ui σ) ∧
  uploadStatus (ui σ') = uploadStatus (ui σ) ∧
  logs (ui σ') = logs (ui σ) ∧
  isEvaluating (ui σ') = isEvaluating (ui σ) ∧
  sources σ' = sources σ ∧
  eventSource σ' = eventSource σ ∧
  trace σ' = trace σ ∧
  unmounted σ' = unmounted σ.
Proof.
  cbv zeta. unfold step. destruct (unmounted σ) eqn:Hm; [by rewrite Hm|].
  rewrite dispatch_quiet by apply handleFileChange_quiet. simpl.
  unfold handleFileChange. destruct (files ≫= head) as [file|]; [|done].
  destruct (bool_decide _); [by destruct ty | by destruct ty].
Qed.

End Frames.

Lemma error_handled_once_witness :
  let τ := run (step (evaluating "abc123") (Error 0 false)) [Download (Resolved graded)] in
  (∀ f, step τ (Error 0 f) = τ) ∧
  (∀ d, step τ (Message 0 d) = τ) ∧
  step τ (Connected 0) = τ.
Proof.
  exact (error_handled_once (evaluating "abc123") 0 false
           [Download (Resolved graded)] eq_refl eq_refl).
Defined.

Lemma handleDownload_outcome_witness :
  (∃ resp b, Resolved badGateway = Resolved resp ∧ ok resp = true ∧ blob resp = inr b ∧
     handleDownload (ui (finished "abc123")) (Resolved badGateway)
     = ([], [Fetch "GET" (resultUrl "abc123") []; SaveAs (savedName "abc123") b])) ∨
  (¬ (∃ resp b, Resolved badGateway = Resolved resp ∧ ok resp = true ∧ blob resp = inr b) ∧
   ∃ msg, handleDownload (ui (finished "abc123")) (Resolved badGateway)
          = ([setError (Some msg)], [Fetch "GET" (resultUrl "abc123") []])).
Proof.
  exact (handleDownload_outcome (ui (finished "abc123")) (Resolved badGateway)
           "abc123" eq_refl eq_refl).
Defined.

(** ** The page and its controls *)

Section Page.

Implicit Types (p : page) (σ : session) (i j k : nat).

Lemma step_error_ui σ i fatal :
  unmounted σ = false → live i σ = true →
  ui (step σ (Error i fatal))
  = render (ui σ) [ setIsEvaluating false; setUploadStatus "Evaluation completed";
                    setError (Some connectionLost) ] ∧
  unmounted (step σ (Error i fatal)) = false.
Proof.
  intros Hm Hi. unfold step. rewrite Hm, Hi.
  pose proof (live_lt _ _ Hi) as Hlt.
  destruct (sources σ !! i) as [es|] eqn:Hes;
    [|apply lookup_ge_None in Hes; lia].
  unfold onerror. cbv zeta.
  assert (readyState <$>
            sources (close i (emit [ConsoleError]
              (setReadyState i (if fatal then CLOSED else CONNECTING) σ))) !! i
          = Some CLOSED) as ->.
  { simpl. by rewrite !list_lookup_alter_eq, Hes. }
  split; [by rewrite ui_dispatch|].
  by rewrite unmounted_dispatch_off.
Qed.

Lemma step_upload_idle σ a q :
  unmounted σ = false → isEvaluating (ui σ) = false →
  answerScript (ui σ) = Some a → questionPaper (ui σ) = Some q →
  step σ Upload
  = mkSession (render (ui σ) uploadResets) (sources σ) (eventSource σ)
      (trace σ ++ [Fetch "POST" (API_BASE_URL +:+ "/upload-pdfs/")
                     [("answer_script", a); ("question_paper", q)]])
      false.
Proof.
  intros Hm Hv Ha Hq. rewrite (step_upload σ a q) by done.
  rewrite dispatch_quiet; [simpl; by rewrite Hm|].
  simpl. by rewrite Hv.
Qed.

Lemma enabled_upload p :
  enabled p Upload = true →
  unmounted (current p) = false ∧
  isLoading (ui (current p)) = false ∧
  isEvaluating (ui (current p)) = false ∧
  ∃ a q, answerScript (ui (current p)) = Some a ∧
         questionPaper (ui (current p)) = Some q.
Proof.
  unfold enabled, uploadDisabled, missing.
  destruct (unmounted _), (isLoading _), (isEvaluating _),
    (answerScript _) as [a|], (questionPaper _) as [q|]; try done.
  intros _. split_and!; try done. by exists a, q.
Qed.

(** X8. While the upload button is enabled, a click sends one request with
    the two chosen files and resets the state, and that is all: no source is
    closed or opened, so that through the page [handleUpload] never has a
    stream to tear down. *)
Theorem upload_click p :
  enabled p Upload = true →
  ∃ a q,
    answerScript (ui (current p)) = Some a ∧
    questionPaper (ui (current p)) = Some q ∧
    current (act p Upload)
    = mkSession (render (ui (current p)) uploadResets) (sources (current p))
        (eventSource (current p))
        (trace (current p)
           ++ [Fetch "POST" (API_BASE_URL +:+ "/upload-pdfs/")
                 [("answer_script", a); ("question_paper", q)]])
        false.
Proof.
  intros He. destruct (enabled_upload p He) as (Hm & _ & Hv & a & q & Ha & Hq).
  exists a, q. split_and!; try done.
  unfold act. rewrite He. simpl. by apply step_upload_idle.
Qed.


End Page.

Lemma upload_click_witness :
  ∃ a q,
    answerScript (ui (run mount chosen)) = Some a ∧
    questionPaper (ui (run mount chosen)) = Some q ∧
    current (act (mkPage (run mount chosen) 0) Upload)
    = mkSession (render (ui (run mount chosen)) uploadResets) [] None
        ([] ++ [Fetch "POST" (API_BASE_URL +:+ "/upload-pdfs/")
                  [("answer_script", a); ("question_paper", q)]])
        false.
Proof. exact (upload_click (mkPage (run mount chosen) 0) eq_refl). Defined.


Section Orderly.

Implicit Types (p : page) (σ : session) (i j k : nat).

Lemma reachable_step σ e : reachable σ → reachable (step σ e).
Proof.
  intros [evs ->]. exists (evs ++ [e]). unfold run. by rewrite fold_left_app.
Qed.

Lemma reachable_act p e : reachable (current p) → reachable (current (act p e)).
Proof.
  intros Hr. unfold act. destruct (enabled p e); [|done].
  by apply reachable_step.
Qed.

Lemma browsed_reachable p : browsed p → reachable (current p).
Proof.
  intros [evs ->]. induction evs as [|e evs IH] using rev_ind.
  - by exists [].
  - unfold browse. rewrite fold_left_app. by apply reachable_act.
Qed.

Lemma isLoading_settle s r : isLoading (render s (handleUpload_settle r)) = false.
Proof. unfold handleUpload_settle. by destruct (uploadTry r). Qed.

Lemma settle_keeps s r :
  let s' := render s (handleUpload_settle r) in
  answerScript s' = answerScript s ∧ questionPaper s' = questionPaper s ∧
  logs s' = logs s.
Proof. unfold handleUpload_settle. by destruct (uploadTry r). Qed.

Lemma orderly_act p e : reachable (current p) → orderly p → orderly (act p e).
Proof.
  intros Hr Hord. unfold act.
  destruct (enabled p e) eqn:Hen; [|done].
  destruct p as [σ n]. pose proof Hord as (Ha & He & Hb & Hc & Hd).
  cbn [current inflight] in Hr, Hen, Ha, He, Hb, Hc, Hd |- *.
  destruct e as [files ty| |r|r|i|i data|i fatal].
  - (* a file input: neither loading nor evaluating *)
    unfold enabled, inputDisabled in Hen. cbn [current] in Hen.
    destruct (unmounted σ) eqn:Hm; [done|].
    destruct (isLoading (ui σ)) eqn:Hl; [done|].
    destruct (isEvaluating (ui σ)) eqn:Hv; [done|].
    unfold step. rewrite Hm.
    rewrite dispatch_quiet by apply handleFileChange_quiet.
    destruct (handleFileChange_keeps (ui σ) files ty) as (Hid & Hl' & Hlogs & Hv').
    unfold orderly. cbn [current inflight ui unmounted].
    rewrite Hid, Hl', Hlogs, Hv', Hl, Hv, Hm.
    split_and!; try done. by intros [|].
  - (* the upload button *)
    destruct (enabled_upload _ Hen) as (Hm & Hl & Hv & a & q & Haq & Hq).
    cbn [current] in *.
    rewrite (step_upload_idle σ a q) by done.
    unfold orderly. cbn. rewrite Haq, Hq. rewrite Hl in Ha.
    split_and!; try done. by rewrite Ha.
  - (* the response of the one call in flight *)
    cbn [enabled inflight] in Hen. apply bool_decide_eq_true in Hen.
    destruct (isLoading (ui σ)) eqn:Hl; [|lia].
    destruct (unmounted σ) eqn:Hm; [by specialize (He eq_refl)|].
    destruct (Hb eq_refl) as [Hv Hlogs].
    destruct (Hc (or_introl eq_refl)) as [Hma Hmq].
    unfold step. rewrite Hm.
    destruct (settle_keeps (ui σ) r) as (Ha' & Hq' & Hlogs').
    unfold orderly. cbn [current inflight].
    rewrite ui_dispatch, isLoading_settle, Ha', Hq', Hlogs', Hlogs, Ha.
    split_and!; try done.
  - (* the download button *)
    unfold enabled in Hen. cbn [current] in Hen.
    destruct (unmounted σ) eqn:Hm; [done|].
    rewrite step_download by done.
    destruct (handleDownload_calls (ui σ) (ui σ) r) as [e Hui].
    unfold orderly. cbn [current inflight ui unmounted]. rewrite Hui, Hm. by cbn.
  - (* a connection notice *)
    assert (ui (step σ (Connected i)) = ui σ ∧
            unmounted (step σ (Connected i)) = unmounted σ) as [Hui Hm'].
    { unfold step. destruct (unmounted σ) eqn:Hm; [done|].
      by destruct (live i σ). }
    unfold orderly. cbn [current inflight]. by rewrite Hui, Hm'.
  - (* a message *)
    destruct (unmounted σ) eqn:Hm;
      [unfold step; by rewrite Hm|].
    destruct (live i σ) eqn:Hi; [|by rewrite (step_dead σ i); eauto].
    destruct (live_job σ i Hr Hi) as (_ & Hv & Ht).
    cbn [current] in *.
    destruct (isLoading (ui σ)) eqn:Hl; [by destruct (Hb eq_refl); congruence|].
    rewrite step_message by done.
    unfold orderly. cbn [current inflight ui unmounted].
    unfold onmessage. destruct (truthy (VStr _)); cbn; rewrite Hl, Hv, ?Hm;
      split_and!; try done.
    all: intros _; by apply Hc; right.
  - (* an error *)
    destruct (unmounted σ) eqn:Hm;
      [unfold step; by rewrite Hm|].
    destruct (live i σ) eqn:Hi; [|by rewrite (step_dead σ i); eauto].
    destruct (step_error_ui σ i fatal Hm Hi) as [Hui Hm'].
    unfold orderly. cbn [current inflight]. rewrite Hui, Hm'. cbn.
    split_and!; try done.
    + intros Hl. by destruct (Hb Hl).
    + intros [Hl|]; [|done]. apply Hc. by left.
Qed.

Lemma browsed_orderly p : browsed p → orderly p.
Proof.
  intros [evs ->]. induction evs as [|e evs IH] using rev_ind.
  - unfold orderly. cbn. split_and!; try done. by intros [|].
  - unfold browse. rewrite fold_left_app.
    apply orderly_act; [|done]. apply browsed_reachable. by exists evs.
Qed.

(** X10. Through the page at most one upload is in flight, and it is in
    flight exactly while [isLoading] is set; all that time the session is not
    evaluating, the log is empty and no source is open. *)
Theorem one_upload_in_flight p :
  browsed p →
  inflight p ≤ 1 ∧
  (inflight p = 1 ↔ isLoading (ui (current p)) = true) ∧
  (isLoading (ui (current p)) = true →
     isEvaluating (ui (current p)) = false ∧
     logs (ui (current p)) = [] ∧
     ∀ k, live k (current p) = false).
Proof.
  intros Hp. destruct (browsed_orderly p Hp) as (Ha & _ & Hb & _).
  cbv zeta in *. split_and!.
  - rewrite Ha. destruct (isLoading _); lia.
  - rewrite Ha. by destruct (isLoading _).
  - intros Hl. destruct (Hb Hl) as [Hv Hlogs]. split_and!; try done.
    intros k. destruct (live k (current p)) eqn:Hk; [|done].
    destruct (reachable_inv _ (browsed_reachable p Hp) k Hk) as (_ & Hv' & _).
    congruence.
Qed.

(** X11. Through the page a log that is not empty is always the log of a
    stored job: whenever there are log lines, [evaluationId] is truthy. *)
Theorem log_has_job p :
  browsed p → logs (ui (current p)) ≠ [] →
  truthy (evaluationId (ui (current p))) = true.
Proof.
  intros Hp. by destruct (browsed_orderly p Hp) as (_ & _ & _ & _ & Hd).
Qed.


(** X13. When the stream of a job ends in an error, through the page, the
    session is left with both controls on offer: the download button is
    rendered and enabled for the stored id, and the upload button is enabled
    again. *)
Theorem stream_end_offers_download p i fatal r :
  browsed p → live i (current p) = true →
  let p' := act p (Error i fatal) in
  enabled p' (Download r) = true ∧
  enabled p' Upload = true ∧
  evaluationId (ui (current p')) = evaluationId (ui (current p)).
Proof.
  intros Hp Hi. cbv zeta.
  pose proof (browsed_reachable p Hp) as Hr.
  destruct (browsed_orderly p Hp) as (_ & _ & Hb & Hc & _). cbv zeta in *.
  destruct (live_job _ i Hr Hi) as (Hm & Hv & Ht).
  assert (isLoading (ui (current p)) = false) as Hl.
  { destruct (isLoading _) eqn:Hl; [|done]. destruct (Hb eq_refl). congruence. }
  destruct (Hc (or_intror Hv)) as [Hma Hmq].
  destruct (step_error_ui _ i fatal Hm Hi) as [Hui Hm'].
  unfold act. cbn [enabled]. cbn [current].
  unfold enabled, showsDownload, downloadDisabled, uploadDisabled.
  cbn [current]. rewrite Hui, Hm'. cbn.
  by rewrite Ht, Hl, Hma, Hmq.
Qed.

End Orderly.

Lemma one_upload_in_flight_witness :
  let p := browse opened (chosen ++ [Upload]) in
  inflight p ≤ 1 ∧
  (inflight p = 1 ↔ isLoading (ui (current p)) = true) ∧
  (isLoading (ui (current p)) = true →
     isEvaluating (ui (current p)) = false ∧
     logs (ui (current p)) = [] ∧
     ∀ k, live k (current p) = false).
Proof.
  refine (one_upload_in_flight (browse opened (chosen ++ [Upload])) _).
  exists (chosen ++ [Upload]). reflexivity.
Defined.

Lemma log_has_job_witness :
  logs (ui (current (streaming "abc123"))) = ["line1"] ∧
  truthy (evaluationId (ui (current (streaming "abc123")))) = true.
Proof.
  split; [reflexivity|].
  refine (log_has_job (streaming "abc123") _ _).
  - eexists. reflexivity.
  - discriminate.
Defined.


Lemma stream_end_offers_download_witness :
  let p' := act (streaming "abc123") (Error 0 false) in
  enabled p' (Download (Resolved graded)) = true ∧
  enabled p' Upload = true ∧
  evaluationId (ui (current p')) = VStr "abc123".
Proof.
  refine (stream_end_offers_download (streaming "abc123") 0 false
            (Resolved graded) _ eq_refl).
  eexists. reflexivity.
Defined.

(** ** The earlier component and the current one *)

Section Versions.

(** X14. The two versions of [handleUpload] accept the same responses with
    the same job id: the test for status 502 and the change from [detail]
    to [message] alter only what a failure reports. *)
Theorem versions_accept_alike (r : settled) (id : value) :
  Legacy.uploadTry r = inr id ↔ uploadTry r = inr id.
Proof.
  unfold Legacy.uploadTry, uploadTry. destruct r as [e|resp]; [done|].
  destruct (status resp =? 502)%N eqn:H502.
  - apply N.eqb_eq in H502.
    assert (ok resp = false) as Hok by (unfold ok; by rewrite H502).
    rewrite Hok. split; [|done].
    destruct (json resp) as [e|data]; [done|]. simpl.
    destruct (get data "detail") as [e|d]; [done|]. simpl.
    by destruct (ToString _).
  - destruct (json resp) as [e|data]; [done|]. simpl.
    destruct (ok resp); simpl; [done|].
    destruct (get data "detail") as [e|d], (get data "message") as [e'|m];
      simpl; try done.
    + by destruct (ToString _).
    + by destruct (ToString _).
    + by destruct (ToString (if truthy d then _ else _)), (ToString (if truthy m then _ else _)).
Qed.

(** X15. A refusal whose body gives its reason in [detail] and has no
    [message] is reported by the earlier handler with that reason, and by
    the current one with the templated text only. *)
Theorem detail_is_no_longer_read (s0 : Legacy.state) (s : state)
    (resp : Response) (data : value) (d : string) :
  ok resp = false → status resp ≠ 502%N → json resp = inr data →
  get data "detail" = inr (VStr d) → d ≠ "" →
  get data "message" = inr VUndefined →
  Legacy.error (Legacy.handleUpload_settle (Resolved resp) s0) = VStr d ∧
  error (render s (handleUpload_settle (Resolved resp)))
  = Some (uploadFailed (status resp)).
Proof.
  intros Hok H502%N.eqb_neq Hj Hd Hne Hm. split.
  - unfold Legacy.handleUpload_settle, Legacy.uploadTry.
    rewrite Hj. simpl. rewrite Hok. simpl. rewrite Hd. simpl.
    by rewrite bool_decide_eq_false_2.
  - unfold handleUpload_settle, uploadTry.
    rewrite H502, Hj. simpl. rewrite Hok. simpl. by rewrite Hm.
Qed.

(** X16. For one job id and one response the two versions of
    [handleDownload] save the same files: none unless the response is [ok]
    and its body reads, and then one with the same name and content. *)
Theorem versions_save_alike (s0 : Legacy.state) (s : state) (r : settled) :
  Legacy.evaluationId s0 = evaluationId s →
  saves (Legacy.handleDownload s0 r).2 = saves (handleDownload s r).2.
Proof.
  intros Hid. unfold Legacy.handleDownload, handleDownload. rewrite Hid.
  destruct (negb (truthy _)); [done|].
  unfold Legacy.downloadTry, downloadTry.
  destruct (ToString _) as [e|text]; [done|].
  destruct r as [e|resp]; [done|].
  destruct (status resp =? 502)%N eqn:H502.
  - apply N.eqb_eq in H502.
    assert (ok resp = false) as -> by (unfold ok; by rewrite H502). done.
  - destruct (ok resp); simpl; [|done].
    by destruct (blob resp).
Qed.

(** X17. The earlier [handleDownload] reports a response that is not [ok]
    with its sentence twice over: the error it throws carries the text that
    its [catch] clause puts in front of every message. *)
Theorem legacy_download_refused (s0 : Legacy.state) (resp : Response) (text : string) :
  truthy (Legacy.evaluationId s0) = true →
  ToString (Legacy.evaluationId s0) = inr text →
  ok resp = false →
  let '(s', out) := Legacy.handleDownload s0 (Resolved resp) in
  Legacy.error s' = VStr "Failed to download PDF: Failed to download PDF" ∧
  out = [Fetch "GET" ("http://localhost:8000/get-evaluated-pdf/" +:+ text) []] ∧
  Legacy.evaluationId s' = Legacy.evaluationId s0.
Proof.
  intros Ht Hs Hok. unfold Legacy.handleDownload, Legacy.downloadTry.
  by rewrite Ht, Hs, Hok.
Qed.

End Versions.

Lemma versions_accept_alike_witness :
  Legacy.uploadTry (accepted "abc123") = inr (VStr "abc123").
Proof.
  exact (proj2 (versions_accept_alike (accepted "abc123") (VStr "abc123")) eq_refl).
Defined.

Lemma detail_is_no_longer_read_witness :
  Legacy.error (Legacy.handleUpload_settle (Resolved refusedWithDetail) Legacy.initial)
  = VStr "Only PDF files are allowed" ∧
  error (render initial (handleUpload_settle (Resolved refusedWithDetail)))
  = Some (uploadFailed 400).
Proof.
  refine (detail_is_no_longer_read Legacy.initial initial refusedWithDetail _
            "Only PDF files are allowed" eq_refl _ eq_refl eq_refl _ eq_refl);
    discriminate.
Defined.

Lemma versions_save_alike_witness :
  saves (Legacy.handleDownload
           (Legacy.mkState None None (VStr "xyz") false VNull "") (Resolved graded)).2
  = saves (handleDownload (ui (finished "xyz")) (Resolved graded)).2.
Proof.
  exact (versions_save_alike (Legacy.mkState None None (VStr "xyz") false VNull "")
           (ui (finished "xyz")) (Resolved graded) eq_refl).
Defined.

Lemma legacy_download_refused_witness :
  let '(s', out) :=
    Legacy.handleDownload (Legacy.mkState None None (VStr "xyz") false VNull "")
      (Resolved badGateway) in
  Legacy.error s' = VStr "Failed to download PDF: Failed to download PDF" ∧
  out = [Fetch "GET" ("http://localhost:8000/get-evaluated-pdf/" +:+ "xyz") []] ∧
  Legacy.evaluationId s' = VStr "xyz".
Proof.
  exact (legacy_download_refused (Legacy.mkState None None (VStr "xyz") false VNull "")
           badGateway "xyz" eq_refl eq_refl eq_refl).
Defined.

(** ** What is uploaded *)

Section Pdf.

Implicit Types (σ : session) (s : state) (calls : list setter).

Lemma render_pdfSlot s calls :
  forallb storesPdf calls = true →
  pdfSlot (answerScript s) = true → pdfSlot (questionPaper s) = true →
  pdfSlot (answerScript (render s calls)) = true ∧
  pdfSlot (questionPaper (render s calls)) = true.
Proof.
  revert s. induction calls as [|a calls IH]; intros s Hc Ha Hq; [done|].
  simpl in Hc. apply andb_true_iff in Hc as [Hc1 Hc2].
  apply IH; [done | |]; by destruct a.
Qed.

Lemma dispatch_trace_pdfOnly calls σ :
  forallb pdfOnly (trace σ) = true →
  forallb pdfOnly (trace (dispatch calls σ)) = true.
Proof.
  intros H. unfold dispatch. destruct (existsb _ _); [|done].
  assert (forallb pdfOnly (trace (cleanup
            (mkSession (render (ui σ) calls) (sources σ) (eventSource σ)
               (trace σ) (unmounted σ)))) = true) as Hc.
  { unfold cleanup. cbn [eventSource].
    destruct (eventSource σ); [|done]. simpl.
    rewrite forallb_app, H. done. }
  unfold sseEffect. destruct (_ && _); [|done].
  destruct (ToString _); [done|].
  cbn [trace]. by rewrite forallb_app, Hc.
Qed.

Lemma handlers_store_pdf s files ty r d :
  forallb storesPdf (handleFileChange files ty) = true ∧
  forallb storesPdf (handleUpload_begin s).1 = true ∧
  forallb storesPdf (handleUpload_settle r) = true ∧
  forallb storesPdf (handleDownload s r).1 = true ∧
  forallb storesPdf (onmessage d) = true.
Proof.
  split_and!.
  - unfold handleFileChange. destruct (files ≫= head) as [file|]; [|done].
    destruct (bool_decide (type file = _)) eqn:Hf; [|done].
    destruct ty; simpl; unfold isPdf; by rewrite Hf.
  - unfold handleUpload_begin. by destruct (answerScript s), (questionPaper s).
  - unfold handleUpload_settle. by destruct (uploadTry r).
  - unfold handleDownload. destruct (negb _); [done|].
    by destruct (downloadTry _ _) as [out [e|[]]].
  - unfold onmessage. by destruct (truthy _).
Qed.

Lemma handlers_send_pdf s r :
  pdfSlot (answerScript s) = true → pdfSlot (questionPaper s) = true →
  forallb pdfOnly (handleUpload_begin s).2 = true ∧
  forallb pdfOnly (handleDownload s r).2 = true.
Proof.
  intros Ha Hq. split.
  - unfold handleUpload_begin.
    destruct (answerScript s) as [a|], (questionPaper s) as [q|]; try done.
    simpl in *. by rewrite Ha, Hq.
  - unfold handleDownload. destruct (negb _); [done|].
    unfold downloadTry. destruct (ToString _); [done|].
    destruct r as [e|resp]; [done|].
    destruct (status resp =? 502)%N; [done|].
    destruct (negb (ok resp)); [done|]. by destruct (blob resp).
Qed.

Lemma pdf_step σ e :
  pdfSlot (answerScript (ui σ)) = true ∧ pdfSlot (questionPaper (ui σ)) = true ∧
  forallb pdfOnly (trace σ) = true →
  pdfSlot (answerScript (ui (step σ e))) = true ∧
  pdfSlot (questionPaper (ui (step σ e))) = true ∧
  forallb pdfOnly (trace (step σ e)) = true.
Proof.
  intros (Ha & Hq & Ht). unfold step. destruct (unmounted σ); [done|].
  destruct e as [files ty| |r|r|i|i data|i fatal].
  - destruct (handlers_store_pdf (ui σ) files ty (Rejected NotAnError) "")
      as (H & _).
    rewrite ui_dispatch.
    destruct (render_pdfSlot (ui σ) _ H Ha Hq). split_and!; try done.
    by apply dispatch_trace_pdfOnly.
  - destruct (handlers_store_pdf (ui σ) None answer (Rejected NotAnError) "")
      as (_ & H & _).
    destruct (handlers_send_pdf (ui σ) (Rejected NotAnError) Ha Hq) as [Hs _].
    destruct (handleUpload_begin (ui σ)) as [calls out]. simpl in *.
    rewrite ui_dispatch.
    destruct (render_pdfSlot (ui σ) _ H Ha Hq). split_and!; try done.
    apply dispatch_trace_pdfOnly. simpl. by rewrite forallb_app, Ht.
  - destruct (handlers_store_pdf (ui σ) None answer r "") as (_ & _ & H & _).
    rewrite ui_dispatch.
    destruct (render_pdfSlot (ui σ) _ H Ha Hq). split_and!; try done.
    by apply dispatch_trace_pdfOnly.
  - destruct (handlers_store_pdf (ui σ) None answer r "") as (_ & _ & _ & H & _).
    destruct (handlers_send_pdf (ui σ) r Ha Hq) as [_ Hs].
    destruct (handleDownload (ui σ) r) as [calls out]. simpl in *.
    rewrite ui_dispatch.
    destruct (render_pdfSlot (ui σ) _ H Ha Hq). split_and!; try done.
    apply dispatch_trace_pdfOnly. simpl. by rewrite forallb_app, Ht.
  - by destruct (live i σ).
  - destruct (live i σ); [|done].
    destruct (handlers_store_pdf (ui σ) None answer (Rejected NotAnError) data)
      as (_ & _ & _ & _ & H).
    rewrite ui_dispatch.
    destruct (render_pdfSlot (ui σ) _ H Ha Hq). split_and!; try done.
    by apply dispatch_trace_pdfOnly.
  - destruct (live i σ); [|done].
    unfold onerror. cbv zeta. rewrite ui_dispatch.
    match goal with |- context [render _ ?calls] =>
      assert (forallb storesPdf calls = true) as H
    end.
    { simpl. by destruct (readyState <$> _) as [[]|]. }
    destruct (render_pdfSlot (ui σ) _ H Ha Hq) as [Ha' Hq'].
    split_and!; [exact Ha' | exact Hq' |].
    apply dispatch_trace_pdfOnly. simpl. by rewrite !forallb_app, Ht.
Qed.

(** X18. Whatever the events, the component holds and uploads nothing but
    files declared as PDF: both slots are empty or hold such a file, and
    every request in the trace carries only such files. *)
Theorem uploads_only_pdf σ :
  reachable σ →
  pdfSlot (answerScript (ui σ)) = true ∧
  pdfSlot (questionPaper (ui σ)) = true ∧
  forallb pdfOnly (trace σ) = true.
Proof.
  intros [evs ->]. induction evs as [|e evs IH] using rev_ind; [done|].
  unfold run. rewrite fold_left_app. by apply pdf_step.
Qed.

End Pdf.

Lemma uploads_only_pdf_witness :
  let σ := run mount [ FileChange (Some [mkFile "notes.txt" "text/plain"]) answer;
                       FileChange (Some [pdf "answers.pdf"]) answer;
                       FileChange (Some [mkFile "paper.docx" "application/msword"]) question;
                       Upload; FileChange (Some [pdf "paper.pdf"]) question; Upload ] in
  pdfSlot (answerScript (ui σ)) = true ∧
  pdfSlot (questionPaper (ui σ)) = true ∧
  forallb pdfOnly (trace σ) = true.
Proof.
  refine (uploads_only_pdf _ _). eexists. reflexivity.
Defined.
